(** * KarianaUMCP MCP bridge: a shallow embedding of [kariana-mcp-bridge.js]

    The bridge is a Node.js process.  It answers two requests of an MCP
    client (list the tools, call a tool) by forwarding one JSON message to
    the KarianaUMCP server, first over a raw socket and then over HTTP.

    The embedding follows the source file top to bottom:
    - [Js]: the values the bridge handles (results of [JSON.parse]) and the
      JavaScript operations it applies to them (truthiness, property reads,
      string conversion, [JSON.stringify]);
    - [Socket]: the event handlers of [sendToSocket] as a state machine;
    - [Dispatch]: [sendToHttp] and [sendMessage];
    - [ListTools]: the [ListToolsRequestSchema] handler;
    - [CallTool]: the [CallToolRequestSchema] handler.

    Strings are byte strings.  Failures of JavaScript code are values of
    [result]; a promise that may never settle is a value of [settled]. *)

From Stdlib Require Import String Ascii List Bool Arith ZArith Lia.
From Stdlib Require Import DecimalString.
Import ListNotations.
Set Warnings "-register-all".
Local Open Scope list_scope.
Local Open Scope string_scope.

(** ** Text helpers *)

Definition nl : string := String "010"%char EmptyString.
Definition dquote : string := String "034"%char EmptyString.
Definition backslash : string := String "092"%char EmptyString.

Definition nonempty (s : string) : bool :=
  match s with EmptyString => false | String _ _ => true end.

Definition nat_to_string (n : nat) : string :=
  NilEmpty.string_of_uint (Nat.to_uint n).

Definition N_to_string (n : N) : string :=
  NilEmpty.string_of_uint (N.to_uint n).

Definition Z_to_string (z : Z) : string :=
  NilZero.string_of_int (Z.to_int z).

(** [String.prototype.trim] on ASCII text: tab, line feed, vertical tab,
    form feed, carriage return and space are removed at both ends. *)
Definition is_space (c : ascii) : bool :=
  let n := nat_of_ascii c in
  (Nat.leb 9 n && Nat.leb n 13) || Nat.eqb n 32.

Fixpoint trim_start (s : string) : string :=
  match s with
  | EmptyString => EmptyString
  | String c rest => if is_space c then trim_start rest else s
  end.

Fixpoint trim_end (s : string) : string :=
  match s with
  | EmptyString => EmptyString
  | String c rest =>
      match trim_end rest with
      | EmptyString => if is_space c then EmptyString else String c EmptyString
      | kept => String c kept
      end
  end.

Definition trim (s : string) : string := trim_end (trim_start s).

(** [has_lf s]: a line feed occurs in [s]. *)
Fixpoint has_lf (s : string) : bool :=
  match s with
  | EmptyString => false
  | String c rest => Ascii.eqb c "010"%char || has_lf rest
  end.

(** [contains needle hay]: [needle] occurs in [hay]. *)
Definition contains (needle hay : string) : Prop :=
  exists before after, hay = before ++ needle ++ after.

(** ** Objects as association lists, in property order *)

(** Own-property lookup in an object literal or a parsed object. *)
Fixpoint obj_get {A : Type} (props : list (string * A)) (key : string)
  : option A :=
  match props with
  | [] => None
  | (k, v) :: rest => if String.eqb k key then Some v else obj_get rest key
  end.

Fixpoint has_key {A : Type} (props : list (string * A)) (key : string)
  : bool :=
  match props with
  | [] => false
  | (k, _) :: rest => String.eqb k key || has_key rest key
  end.

(** Defining a data property: an existing key keeps its place and takes
    the new value, a new key goes last.  (An object lists keys that are
    array indices before the others; no statement below depends on the
    place of a key.) *)
Fixpoint obj_set {A : Type} (key : string) (v : A) (props : list (string * A))
  : list (string * A) :=
  match props with
  | [] => [(key, v)]
  | (k, w) :: rest =>
      if String.eqb k key then (k, v) :: rest
      else (k, w) :: obj_set key v rest
  end.

Fixpoint obj_remove {A : Type} (key : string) (props : list (string * A))
  : list (string * A) :=
  match props with
  | [] => []
  | (k, w) :: rest =>
      if String.eqb k key then obj_remove key rest
      else (k, w) :: obj_remove key rest
  end.

(** The keys of a real object are pairwise different. *)
Definition unique_keys {A : Type} (props : list (string * A)) : Prop :=
  NoDup (List.map fst props).

(** ** Exceptions and promises *)

(** The [TypeError]s the engine can raise while it runs the bridge's code
    on JSON data. *)
Inductive type_error : Type :=
| ReadPropertyOfNull (prop : string)
| NotAFunction (callee : string)
| CannotConvertToPrimitive.

Inductive js_error : Type :=
| Error (message : string)
| TypeError (why : type_error)
| SyntaxError (message : string).

Inductive result (A : Type) : Type :=
| Ok (a : A)
| Throw (e : js_error).
Arguments Ok {A} a.
Arguments Throw {A} e.

Definition bind {A B : Type} (r : result A) (k : A -> result B) : result B :=
  match r with
  | Ok a => k a
  | Throw e => Throw e
  end.

Notation "x <- c ;; k" := (bind c (fun x => k))
  (at level 61, c at next level, right associativity).

(** [Array.prototype.map] with a callback that may throw: elements are
    visited from the left and the first exception aborts the call. *)
Fixpoint map_result {A B : Type} (f : A -> result B) (l : list A)
  : result (list B) :=
  match l with
  | [] => Ok []
  | a :: rest =>
      b <- f a ;;
      bs <- map_result f rest ;;
      Ok (b :: bs)
  end.

(** The state of a promise.  [resolve] and [reject] only act on a pending
    promise; see [Socket.resolve] and [Socket.reject]. *)
Inductive settled (A : Type) : Type :=
| Pending
| Fulfilled (a : A)
| Rejected (e : js_error).
Arguments Pending {A}.
Arguments Fulfilled {A} a.
Arguments Rejected {A} e.

(** ** JSON values *)

Inductive value (num : Type) : Type :=
| VNull
| VBool (b : bool)
| VNum (n : num)
| VStr (s : string)
| VArr (items : list (value num))
| VObj (props : list (string * value num)).
Arguments VNull {num}.
Arguments VBool {num} b.
Arguments VNum {num} n.
Arguments VStr {num} s.
Arguments VArr {num} items.
Arguments VObj {num} props.

(** Induction on a value that reaches the items of an array and the
    entries of an object. *)
Section ValueInduction.
Variable num : Type.
Variable P : value num -> Prop.
Hypothesis P_null : P VNull.
Hypothesis P_bool : forall b, P (VBool b).
Hypothesis P_num : forall n, P (VNum n).
Hypothesis P_str : forall s, P (VStr s).
Hypothesis P_arr : forall items, Forall P items -> P (VArr items).
Hypothesis P_obj :
  forall props, Forall (fun kv => P (snd kv)) props -> P (VObj props).

Fixpoint value_induction (v : value num) : P v :=
  match v with
  | VNull => P_null
  | VBool b => P_bool b
  | VNum n => P_num n
  | VStr s => P_str s
  | VArr items =>
      P_arr items
        ((fix all (l : list (value num)) : Forall P l :=
            match l with
            | [] => Forall_nil P
            | x :: rest => Forall_cons x (value_induction x) (all rest)
            end) items)
  | VObj props =>
      P_obj props
        ((fix all (l : list (string * value num))
            : Forall (fun kv => P (snd kv)) l :=
            match l with
            | [] => Forall_nil _
            | kv :: rest =>
                Forall_cons kv (value_induction (snd kv)) (all rest)
            end) props)
  end.
End ValueInduction.

(** What the model takes from the JavaScript host: the numbers ([num] with
    [ToBoolean], [Number::toString] and the JSON rendering, which is
    ["null"] for a non-finite number), the wording of the engine's
    [TypeError]s, and [JSON.parse]. *)
Class Host : Type := {
  num : Type;
  num_truthy : num -> bool;
  num_to_string : num -> string;
  num_to_json : num -> string;
  type_error_message : type_error -> string;
  JSON_parse : string -> result (value num)
}.

Module Js.

(** A value of the host, and the entries of an object. *)
Abbreviation val := (value num).
Abbreviation object := (list (string * value num)).

Section WithHost.
Context {host : Host}.

(** [e.message] *)
Definition error_message (e : js_error) : string :=
  match e with
  | Error m => m
  | TypeError why => type_error_message why
  | SyntaxError m => m
  end.

(** ToBoolean *)
Definition truthy (v : val) : bool :=
  match v with
  | VNull => false
  | VBool b => b
  | VNum n => num_truthy n
  | VStr s => nonempty s
  | VArr _ => true
  | VObj _ => true
  end.

(** ToBoolean of the result of a property read; [None] is [undefined]. *)
Definition truthy_opt (v : option val) : bool :=
  match v with
  | Some x => truthy x
  | None => false
  end.

(** [v.p] for the property names the bridge reads ([success], [output],
    [result], [actors], [image], [format], [error], [functions], [name],
    [description], [parameters], [type], [required]).  None of them is
    defined on the prototypes of objects, arrays, strings, numbers or
    booleans, so only a parsed object can answer; reading a property of
    [null] throws. *)
Definition get_prop (v : val) (p : string) : result (option val) :=
  match v with
  | VNull => Throw (TypeError (ReadPropertyOfNull p))
  | VObj props => Ok (obj_get props p)
  | _ => Ok None
  end.

(** [v || d] *)
Definition or_default (v : option val) (d : val) : val :=
  match v with
  | Some x => if truthy x then x else d
  | None => d
  end.

(** ToString, as applied by template literals and by [+=] on a string.
    An array is joined with commas ([null] elements give the empty
    string).  A parsed object answers ["[object Object]"] unless it has
    an own [toString] entry: that entry is JSON data, hence not
    callable, and no other conversion is left. *)
Fixpoint to_string (v : val) : result string :=
  match v with
  | VNull => Ok "null"
  | VBool b => Ok (if b then "true" else "false")
  | VNum n => Ok (num_to_string n)
  | VStr s => Ok s
  | VArr items =>
      parts <- (fix each (l : list val) : result (list string) :=
                  match l with
                  | [] => Ok []
                  | x :: rest =>
                      s <- match x with
                           | VNull => Ok ""
                           | _ => to_string x
                           end ;;
                      ss <- each rest ;;
                      Ok (s :: ss)
                  end) items ;;
      Ok (String.concat "," parts)
  | VObj props =>
      if has_key props "toString"
      then Throw (TypeError CannotConvertToPrimitive)
      else Ok "[object Object]"
  end.

Definition to_string_opt (v : option val) : result string :=
  match v with
  | Some x => to_string x
  | None => Ok "undefined"
  end.

(** *** JSON.stringify *)

Definition hex_digit (n : nat) : string :=
  match n with
  | 10 => "a" | 11 => "b" | 12 => "c" | 13 => "d" | 14 => "e" | 15 => "f"
  | _ => nat_to_string n
  end.

Definition quote_char (c : ascii) : string :=
  let n := nat_of_ascii c in
  if Nat.eqb n 34 then backslash ++ dquote
  else if Nat.eqb n 92 then backslash ++ backslash
  else if Nat.eqb n 8 then backslash ++ "b"
  else if Nat.eqb n 9 then backslash ++ "t"
  else if Nat.eqb n 10 then backslash ++ "n"
  else if Nat.eqb n 12 then backslash ++ "f"
  else if Nat.eqb n 13 then backslash ++ "r"
  else if Nat.ltb n 32
       then backslash ++ "u00" ++ hex_digit (n / 16) ++ hex_digit (n mod 16)
  else String c EmptyString.

Fixpoint quote_body (s : string) : string :=
  match s with
  | EmptyString => EmptyString
  | String c rest => quote_char c ++ quote_body rest
  end.

Definition quote (s : string) : string := dquote ++ quote_body s ++ dquote.

(** Wraps the members of an array or object; [gap] is the indentation
    unit and [indent] the indentation of the enclosing line. *)
Definition wrap (open close gap indent : string) (members : list string)
  : string :=
  match members with
  | [] => open ++ close
  | _ =>
      if nonempty gap
      then open ++ nl ++ (indent ++ gap)
             ++ String.concat ("," ++ nl ++ (indent ++ gap)) members
             ++ nl ++ indent ++ close
      else open ++ String.concat "," members ++ close
  end.

Fixpoint stringify (gap indent : string) (v : val) : string :=
  match v with
  | VNull => "null"
  | VBool b => if b then "true" else "false"
  | VNum n => num_to_json n
  | VStr s => quote s
  | VArr items =>
      wrap "[" "]" gap indent
        (List.map (stringify gap (indent ++ gap)) items)
  | VObj props =>
      wrap "{" "}" gap indent
        (List.map (fun kv =>
                     match kv with
                     | (k, x) =>
                         quote k ++ (if nonempty gap then ": " else ":")
                           ++ stringify gap (indent ++ gap) x
                     end) props)
  end.

(** [JSON.stringify(v)] *)
Definition JSON_stringify (v : val) : string := stringify "" "" v.

(** [JSON.stringify(v, null, 2)] *)
Definition JSON_stringify_pretty (v : val) : string := stringify "  " "" v.

End WithHost.
End Js.

(** ** [sendToSocket]

    The promise executor registers five callbacks on one socket.  The
    network decides which events arrive and in which order; the model is
    the reaction of the callbacks to any sequence of events. *)
Module Socket.

Inductive event : Type :=
| Connect                    (* the callback passed to [socket.connect] *)
| Data (chunk : string)      (* 'data' *)
| Timeout                    (* 'timeout' *)
| Failure (err : js_error)   (* 'error' *)
| Close.                     (* 'close' *)

(** The text received so far: the chunks of the ['data'] events, in
    order of arrival. *)
Fixpoint received (events : list event) : string :=
  match events with
  | [] => ""
  | Data chunk :: rest => chunk ++ received rest
  | _ :: rest => received rest
  end.

(** How many times the connection was established. *)
Fixpoint connects (events : list event) : nat :=
  match events with
  | [] => 0
  | Connect :: rest => S (connects rest)
  | _ :: rest => connects rest
  end.

Section WithHost.
Context {host : Host}.

(** [responseData], the promise, and what the callbacks did to the
    socket.  [parse_calls] records every text handed to [JSON.parse],
    the latest first. *)
Record state : Type := {
  responseData : string;
  promise : settled Js.val;
  destroyed : bool;
  written : list string;
  parse_calls : list string
}.

Definition initial : state :=
  {| responseData := ""; promise := Pending; destroyed := false;
     written := []; parse_calls := [] |}.

(** [resolve(v)] and [reject(e)]: the first call settles the promise,
    every later call is ignored. *)
Definition resolve (v : Js.val) (s : state) : state :=
  match promise s with
  | Pending =>
      {| responseData := responseData s; promise := Fulfilled v;
         destroyed := destroyed s; written := written s;
         parse_calls := parse_calls s |}
  | _ => s
  end.

Definition reject (e : js_error) (s : state) : state :=
  match promise s with
  | Pending =>
      {| responseData := responseData s; promise := Rejected e;
         destroyed := destroyed s; written := written s;
         parse_calls := parse_calls s |}
  | _ => s
  end.

(** [socket.destroy()] *)
Definition destroy (s : state) : state :=
  {| responseData := responseData s; promise := promise s;
     destroyed := true; written := written s;
     parse_calls := parse_calls s |}.

(** [socket.write(line)] *)
Definition write (line : string) (s : state) : state :=
  {| responseData := responseData s; promise := promise s;
     destroyed := destroyed s; written := (written s ++ [line])%list;
     parse_calls := parse_calls s |}.

(** [responseData += chunk] *)
Definition append (chunk : string) (s : state) : state :=
  {| responseData := responseData s ++ chunk; promise := promise s;
     destroyed := destroyed s; written := written s;
     parse_calls := parse_calls s |}.

(** [JSON.parse(responseData.trim())] *)
Definition parse_buffer (s : state) : state * result Js.val :=
  let text := trim (responseData s) in
  ({| responseData := responseData s; promise := promise s;
      destroyed := destroyed s; written := written s;
      parse_calls := text :: parse_calls s |},
   JSON_parse text).

Definition on_timeout (s : state) : state :=
  reject (Error "Socket timeout") (destroy s).

Definition on_connect (message : Js.val) (s : state) : state :=
  write (Js.JSON_stringify message ++ nl) s.

Definition on_data (chunk : string) (s : state) : state :=
  let (s1, parsed) := parse_buffer (append chunk s) in
  match parsed with
  | Ok v => resolve v (destroy s1)
  | Throw _ => s1
  end.

Definition on_error (err : js_error) (s : state) : state := reject err s.

Definition on_close (s : state) : state :=
  if nonempty (responseData s) then
    let (s1, parsed) := parse_buffer s in
    match parsed with
    | Ok v => resolve v s1
    | Throw _ => reject (Error "Invalid JSON response") s1
    end
  else s.

Definition handle (message : Js.val) (s : state) (ev : event) : state :=
  match ev with
  | Connect => on_connect message s
  | Data chunk => on_data chunk s
  | Timeout => on_timeout s
  | Failure err => on_error err s
  | Close => on_close s
  end.

Definition run_from (message : Js.val) (s : state) (events : list event)
  : state :=
  List.fold_left (handle message) events s.

Definition run (message : Js.val) (events : list event) : state :=
  run_from message initial events.

(** While the promise is pending, the buffer is empty or is not JSON:
    the last ['data'] callback has tried the very same text. *)
Definition awaiting_more (s : state) : Prop :=
  promise s = Pending ->
  responseData s = ""
  \/ exists e, JSON_parse (trim (responseData s)) = Throw e.

End WithHost.
End Socket.

(** ** [sendToHttp] and [sendMessage] *)
Module Dispatch.

Inductive transport : Type := SocketTransport | HttpTransport.

(** What [fetch] meets: no answer at all, a rejection (network failure),
    or a response with a status code and a body. *)
Inductive http_exchange : Type :=
| NoReply
| FetchFailed (e : js_error)
| Reply (status : N) (body : string).

(** The network during one call of [sendMessage]. *)
Record network : Type := {
  socket_events : list Socket.event;
  http : http_exchange
}.

Section WithHost.
Context {host : Host}.

(** An awaited call: the transports it attempted, in order, and how it
    ended. *)
Definition async (A : Type) : Type := (list transport * settled A)%type.

(** [try { return await body } catch (e) { handler(e) }]: the handler
    runs only once [body] has been rejected. *)
Definition try_catch {A : Type} (body : async A)
  (handler : js_error -> async A) : async A :=
  match body with
  | (log, Rejected e) =>
      let (log', r) := handler e in ((log ++ log')%list, r)
  | other => other
  end.

Definition sendToSocket (net : network) (message : Js.val)
  : async Js.val :=
  ([SocketTransport],
   Socket.promise (Socket.run message (socket_events net))).

(** [response.ok] *)
Definition response_ok (status : N) : bool :=
  (N.leb 200 status && N.leb status 299)%bool.

Definition sendToHttp (net : network) (message : Js.val) : async Js.val :=
  ([HttpTransport],
   match http net with
   | NoReply => Pending
   | FetchFailed e => Rejected e
   | Reply status body =>
       if negb (response_ok status)
       then Rejected (Error ("HTTP error: " ++ N_to_string status))
       else match JSON_parse body with
            | Ok v => Fulfilled v
            | Throw e => Rejected e
            end
   end).

Definition composite_message (socketErr httpErr : js_error) : string :=
  "Connection failed: Socket(" ++ Js.error_message socketErr
    ++ "), HTTP(" ++ Js.error_message httpErr ++ ")".

Definition sendMessage (net : network) (message : Js.val) : async Js.val :=
  try_catch (sendToSocket net message) (fun socketErr =>
    try_catch (sendToHttp net message) (fun httpErr =>
      ([], Rejected (Error (composite_message socketErr httpErr))))).

End WithHost.
End Dispatch.

(** ** The [ListToolsRequestSchema] handler *)
Module ListTools.
Section WithHost.
Context {host : Host}.

Record property_schema : Type := {
  prop_type : Js.val;
  prop_description : Js.val
}.

(** [required] is [None] where the object literal has no such entry. *)
Record input_schema : Type := {
  schema_type : string;
  properties : list (string * property_schema);
  required : option (list string)
}.

(** [tool_name] is [None] when [func.name] is [undefined]. *)
Record tool : Type := {
  tool_name : option Js.val;
  tool_description : Js.val;
  inputSchema : input_schema
}.

Record reply : Type := {
  tools : list tool;
  stderr : list string
}.

(** [Object.entries(v)] for a value that is not [null]: the entries of an
    object, the indexed elements of an array, the indexed characters of a
    string, nothing for a number or a boolean. *)
Fixpoint indexed {A : Type} (from : nat) (l : list A) : list (string * A) :=
  match l with
  | [] => []
  | a :: rest => (nat_to_string from, a) :: indexed (S from) rest
  end.

Fixpoint characters (s : string) : list Js.val :=
  match s with
  | EmptyString => []
  | String c rest => VStr (String c EmptyString) :: characters rest
  end.

Definition Object_entries (v : Js.val) : list (string * Js.val) :=
  match v with
  | VObj props => props
  | VArr items => indexed 0 items
  | VStr s => indexed 0 (characters s)
  | _ => []
  end.

(** [value.type === 'integer' ? 'number' : value.type || 'string'] *)
Definition map_type (declared : option Js.val) : Js.val :=
  match declared with
  | Some (VStr s) =>
      if String.eqb s "integer" then VStr "number"
      else Js.or_default declared (VStr "string")
  | _ => Js.or_default declared (VStr "string")
  end.

(** [acc[key] = schema]: assigning to [__proto__] replaces the prototype
    of [acc] and adds no entry. *)
Definition assign (key : string) (schema : property_schema)
  (acc : list (string * property_schema)) : list (string * property_schema) :=
  if String.eqb key "__proto__" then acc else obj_set key schema acc.

(** The callback of [reduce]. *)
Definition add_property (acc : list (string * property_schema))
  (entry : string * Js.val) : result (list (string * property_schema)) :=
  let (key, value_) := entry in
  declared <- Js.get_prop value_ "type" ;;
  described <- Js.get_prop value_ "description" ;;
  Ok (assign key
        {| prop_type := map_type declared;
           prop_description := Js.or_default described (VStr "") |}
        acc).

Fixpoint reduce {A B : Type} (f : B -> A -> result B) (l : list A) (acc : B)
  : result B :=
  match l with
  | [] => Ok acc
  | a :: rest => acc' <- f acc a ;; reduce f rest acc'
  end.

(** [.filter(([, v]) => v.required).map(([k]) => k)] *)
Fixpoint required_keys (entries : list (string * Js.val))
  : result (list string) :=
  match entries with
  | [] => Ok []
  | (k, v) :: rest =>
      flag <- Js.get_prop v "required" ;;
      ks <- required_keys rest ;;
      Ok (if Js.truthy_opt flag then k :: ks else ks)
  end.

(** The callback of [response.functions.map]. *)
Definition to_tool (func : Js.val) : result tool :=
  name <- Js.get_prop func "name" ;;
  described <- Js.get_prop func "description" ;;
  description <-
    match described with
    | Some d =>
        if Js.truthy d then Ok d
        else (shown <- Js.to_string_opt name ;;
              Ok (VStr ("KarianaUMCP tool: " ++ shown)))
    | None =>
        shown <- Js.to_string_opt name ;;
        Ok (VStr ("KarianaUMCP tool: " ++ shown))
    end ;;
  parameters <- Js.get_prop func "parameters" ;;
  let entries := Object_entries (Js.or_default parameters (VObj [])) in
  props <- reduce add_property entries [] ;;
  req <- required_keys entries ;;
  Ok {| tool_name := name;
        tool_description := description;
        inputSchema := {| schema_type := "object";
                          properties := props;
                          required := Some req |} |}.

Definition string_property (text : string) : property_schema :=
  {| prop_type := VStr "string"; prop_description := VStr text |}.

(** The literal returned when the reply is not a successful catalog. *)
Definition minimal_tools : list tool :=
  [ {| tool_name := Some (VStr "ping");
       tool_description := VStr "Test KarianaUMCP connection";
       inputSchema := {| schema_type := "object"; properties := [];
                         required := None |} |};
    {| tool_name := Some (VStr "list_actors");
       tool_description := VStr "List all actors in the Unreal level";
       inputSchema :=
         {| schema_type := "object";
            properties :=
              [("class_filter", string_property "Filter by actor class")];
            required := None |} |};
    {| tool_name := Some (VStr "execute_python");
       tool_description := VStr "Execute Python code in Unreal Engine";
       inputSchema :=
         {| schema_type := "object";
            properties :=
              [("code", string_property "Python code to execute")];
            required := Some ["code"] |} |} ].

(** The body of the [try] block once [sendMessage] has answered. *)
Definition translate (response : Js.val) : result (list tool) :=
  success <- Js.get_prop response "success" ;;
  functions <- (if Js.truthy_opt success
                then Js.get_prop response "functions"
                else Ok None) ;;
  if (Js.truthy_opt success && Js.truthy_opt functions)%bool then
    match functions with
    | Some (VArr funcs) => map_result to_tool funcs
    | _ => Throw (TypeError (NotAFunction "response.functions.map"))
    end
  else Ok minimal_tools.

Definition list_functions_message : Js.val :=
  VObj [("type", VStr "list_functions")].

(** The [catch] block. *)
Definition failed (error : js_error) : reply :=
  {| tools := [];
     stderr := ["Failed to list tools: " ++ Js.error_message error] |}.

Definition handler (net : Dispatch.network) : settled reply :=
  match snd (Dispatch.sendMessage net list_functions_message) with
  | Pending => Pending
  | Rejected error => Fulfilled (failed error)
  | Fulfilled response =>
      match translate response with
      | Ok ts => Fulfilled {| tools := ts; stderr := [] |}
      | Throw error => Fulfilled (failed error)
      end
  end.

End WithHost.
End ListTools.

(** ** The [CallToolRequestSchema] handler *)
Module CallTool.
Section WithHost.
Context {host : Host}.

Inductive content_block : Type :=
| Text (text : string)
| Image (data : Js.val) (mimeType : string).

(** [isError] is [false] where the returned object has no such entry. *)
Record reply : Type := {
  content : list content_block;
  isError : bool
}.

(** [{ type: name, ...args }]; [args] is [None] when the request carries
    no [arguments]. *)
Definition spread (base : Js.object) (args : option Js.object)
  : Js.object :=
  match args with
  | Some entries =>
      List.fold_left (fun acc kv => obj_set (fst kv) (snd kv) acc)
        entries base
  | None => base
  end.

Definition make_message (name : string) (args : option Js.object)
  : Js.val :=
  VObj (spread [("type", VStr name)] args).

(** [(text ? '\n' : '')] *)
Definition separator (text : string) : string :=
  if nonempty text then nl else "".

(** The callback of [response.actors.map]:
    [a => `  - ${typeof a === 'string' ? a : a.name}`] *)
Definition actor_line (a : Js.val) : result string :=
  shown <- match a with
           | VStr s => Ok s
           | _ => (name <- Js.get_prop a "name" ;; Js.to_string_opt name)
           end ;;
  Ok ("  - " ++ shown).

(** [`Actors:\n${response.actors.map(...).join('\n')}`] *)
Definition actors_text (actors : Js.val) : result string :=
  match actors with
  | VArr items =>
      lines <- map_result actor_line items ;;
      Ok ("Actors:" ++ nl ++ String.concat nl lines)
  | _ => Throw (TypeError (NotAFunction "response.actors.map"))
  end.

(** The branch [if (response.success)], statement by statement. *)
Definition format_success (response : Js.val)
  : result (list content_block) :=
  let content : list content_block := [] in
  let text := "" in
  output <- Js.get_prop response "output" ;;
  text <- match output with
          | Some o =>
              if Js.truthy o
              then (shown <- Js.to_string o ;; Ok (text ++ shown))
              else Ok text
          | None => Ok text
          end ;;
  result_ <- Js.get_prop response "result" ;;
  text <- match result_ with
          | Some r =>
              if Js.truthy r
              then Ok (text ++ separator text
                         ++ "Result: " ++ Js.JSON_stringify_pretty r)
              else Ok text
          | None => Ok text
          end ;;
  actors <- Js.get_prop response "actors" ;;
  text <- match actors with
          | Some a =>
              if Js.truthy a
              then (listing <- actors_text a ;;
                    Ok (text ++ separator text ++ listing))
              else Ok text
          | None => Ok text
          end ;;
  image <- Js.get_prop response "image" ;;
  content <- match image with
             | Some i =>
                 if Js.truthy i
                 then (format <- Js.get_prop response "format" ;;
                       kind <- Js.to_string
                                 (Js.or_default format (VStr "png")) ;;
                       Ok (content
                             ++ [Image i ("image/" ++ kind)])%list)
                 else Ok content
             | None => Ok content
             end ;;
  let text :=
    if (negb (nonempty text) && negb (Js.truthy_opt image))%bool
    then Js.JSON_stringify_pretty response
    else text in
  let content :=
    if nonempty text then (content ++ [Text text])%list else content in
  Ok content.

(** The branch [else] of [if (response.success)]. *)
Definition format_failure (response : Js.val)
  : result (list content_block) :=
  error <- Js.get_prop response "error" ;;
  shown <- Js.to_string (Js.or_default error (VStr "Unknown error")) ;;
  Ok [Text ("Error: " ++ shown)].

(** "Format response for MCP": from [const content = []] to the last
    [content.push]. *)
Definition format_response (response : Js.val)
  : result (list content_block) :=
  success <- Js.get_prop response "success" ;;
  match success with
  | Some flag =>
      if Js.truthy flag then format_success response
      else format_failure response
  | None => Ok [Text (Js.JSON_stringify_pretty response)]
  end.

(** The [catch] block. *)
Definition failed (name : string) (error : js_error) : reply :=
  {| content := [Text ("Failed to call tool " ++ name ++ ": "
                         ++ Js.error_message error)];
     isError := true |}.

Definition handler (net : Dispatch.network) (name : string)
  (args : option Js.object) : settled reply :=
  match snd (Dispatch.sendMessage net (make_message name args)) with
  | Pending => Pending
  | Rejected error => Fulfilled (failed name error)
  | Fulfilled response =>
      match format_response response with
      | Ok blocks => Fulfilled {| content := blocks; isError := false |}
      | Throw error => Fulfilled (failed name error)
      end
  end.

End WithHost.
End CallTool.

(** ** The content blocks of a successful response, stated by position

    A second description of what [CallTool.format_success] returns, by
    the place of each block instead of by the statements that build the
    list: the image block, if any, comes first; one text block follows,
    made of the pieces the response has, joined by line feeds. *)
Module Layout.
Section WithHost.
Context {host : Host}.

(** The rendering of a field that is present and truthy; nothing
    otherwise. *)
Definition piece (field : option Js.val) (render : Js.val -> result string)
  : result (list string) :=
  match field with
  | Some v => if Js.truthy v then (s <- render v ;; Ok [s]) else Ok []
  | None => Ok []
  end.

Definition text_pieces (props : Js.object) : result (list string) :=
  a <- piece (obj_get props "output") Js.to_string ;;
  b <- piece (obj_get props "result")
         (fun r => Ok ("Result: " ++ Js.JSON_stringify_pretty r)) ;;
  c <- piece (obj_get props "actors") CallTool.actors_text ;;
  Ok (a ++ b ++ c)%list.

Definition joined (pieces : list string) : string :=
  String.concat nl (List.filter nonempty pieces).

Definition image_blocks (props : Js.object)
  : result (list CallTool.content_block) :=
  match obj_get props "image" with
  | Some i =>
      if Js.truthy i
      then (kind <- Js.to_string
                      (Js.or_default (obj_get props "format") (VStr "png")) ;;
            Ok [CallTool.Image i ("image/" ++ kind)])
      else Ok []
  | None => Ok []
  end.

Definition text_blocks (props : Js.object) (pieces : list string)
  (images : list CallTool.content_block) : list CallTool.content_block :=
  if nonempty (joined pieces) then [CallTool.Text (joined pieces)]
  else match images with
       | [] => [CallTool.Text (Js.JSON_stringify_pretty (VObj props))]
       | _ => []
       end.

Definition blocks_in_order (props : Js.object)
  : result (list CallTool.content_block) :=
  pieces <- text_pieces props ;;
  images <- image_blocks props ;;
  Ok (images ++ text_blocks props pieces images)%list.

(** The schema of one parameter, read off its specification: a
    specification that is not an object declares nothing. *)
Definition declared (spec : Js.val) (entry : string) : option Js.val :=
  match spec with
  | VObj entries => obj_get entries entry
  | _ => None
  end.

Definition property_for (spec : Js.val) : ListTools.property_schema :=
  {| ListTools.prop_type := ListTools.map_type (declared spec "type");
     ListTools.prop_description :=
       Js.or_default (declared spec "description") (VStr "") |}.

(** A property whose type is truthy and is not ["integer"]. *)
Definition typed_well (kp : string * ListTools.property_schema) : Prop :=
  ListTools.prop_type (snd kp) <> VStr "integer"
  /\ Js.truthy (ListTools.prop_type (snd kp)) = true.

(** The parameters of a function as the handler enumerates them. *)
Definition parameter_entries (func : Js.val) : Js.object :=
  ListTools.Object_entries
    (Js.or_default (declared func "parameters") (VObj [])).

(** The keys of the entries whose [required] is truthy. *)
Definition required_of (entries : Js.object) : list string :=
  List.map fst
    (List.filter (fun kv => Js.truthy_opt (declared (snd kv) "required"))
       entries).

(** A reply that is a successful catalog for the list-tools handler:
    an object whose [success] and [functions] entries are truthy. *)
Definition announces_catalog (response : Js.val) : bool :=
  match response with
  | VObj props =>
      (Js.truthy_opt (obj_get props "success")
       && Js.truthy_opt (obj_get props "functions"))%bool
  | _ => false
  end.

End WithHost.
End Layout.

(** ** A host to run the examples on

    Numbers are the integers, the wording of the [TypeError]s is V8's, and
    [JSON.parse] knows the few texts the examples send. *)
Module Example.

Definition v8_message (why : type_error) : string :=
  match why with
  | ReadPropertyOfNull p =>
      "Cannot read properties of null (reading '" ++ p ++ "')"
  | NotAFunction callee => callee ++ " is not a function"
  | CannotConvertToPrimitive => "Cannot convert object to primitive value"
  end.

Definition parse_known (text : string) : result (value Z) :=
  if String.eqb text "{}" then Ok (VObj [])
  else if String.eqb text "null" then Ok VNull
  else if String.eqb text "0" then Ok (VNum 0%Z)
  else Throw (SyntaxError "Unexpected end of JSON input").

#[export] Instance node : Host := {|
  num := Z;
  num_truthy := fun z => negb (Z.eqb z 0);
  num_to_string := Z_to_string;
  num_to_json := Z_to_string;
  type_error_message := v8_message;
  JSON_parse := parse_known
|}.

(** [{success:true, output:"A", result:{x:1}, image:"b64", format:"jpeg"}] *)
Definition full_response : Js.object :=
  [("success", VBool true); ("output", VStr "A");
   ("result", VObj [("x", VNum 1%Z)]);
   ("image", VStr "b64"); ("format", VStr "jpeg")].

(** [{success:true, result:0}] *)
Definition zero_result : Js.object :=
  [("success", VBool true); ("result", VNum 0%Z)].


(** The socket is refused and the HTTP proxy answers 500. *)
Definition offline : Dispatch.network :=
  {| Dispatch.socket_events := [Socket.Failure (Error "refused"); Socket.Close];
     Dispatch.http := Dispatch.Reply 500 "" |}.

(** The server accepts the connection and closes it without a byte; the
    HTTP proxy would answer. *)
Definition silent_close : Dispatch.network :=
  {| Dispatch.socket_events := [Socket.Connect; Socket.Close];
     Dispatch.http := Dispatch.Reply 200 "{}" |}.

(** The socket answers [{}], an object without [success]. *)
Definition answers_empty_object : Dispatch.network :=
  {| Dispatch.socket_events := [Socket.Connect; Socket.Data "{}"; Socket.Close];
     Dispatch.http := Dispatch.NoReply |}.

Definition ping_message : Js.val := CallTool.make_message "ping" None.

End Example.

#[local] Existing Instance Example.node.

(** ** A host whose server has a catalog

    As [Example.node], with a [JSON.parse] that also knows the text of two
    replies to [list_functions]: a catalog of one function, and a catalog
    in which an entry is [null]. *)
Module Catalog.

(** [{name:"spawn_actor", parameters:{count:{type:"integer",
    required:true}, label:{type:"", description:"Name"},
    tags:{type:"array"}}}] *)
Definition parameters : list (string * value Z) :=
  [("count", VObj [("type", VStr "integer"); ("required", VBool true)]);
   ("label", VObj [("type", VStr ""); ("description", VStr "Name")]);
   ("tags", VObj [("type", VStr "array")])].

Definition entries : list (string * value Z) :=
  [("name", VStr "spawn_actor"); ("parameters", VObj parameters)].

Definition spawn_actor : value Z := VObj entries.

Definition reply : value Z :=
  VObj [("success", VBool true); ("functions", VArr [spawn_actor])].

Definition broken_reply : value Z :=
  VObj [("success", VBool true); ("functions", VArr [spawn_actor; VNull])].

Definition reply_text : string := Js.JSON_stringify reply.
Definition broken_text : string := Js.JSON_stringify broken_reply.

Definition parse (text : string) : result (value Z) :=
  if String.eqb text reply_text then Ok reply
  else if String.eqb text broken_text then Ok broken_reply
  else Example.parse_known text.

Definition node : Host := {|
  num := Z;
  num_truthy := fun z => negb (Z.eqb z 0);
  num_to_string := Z_to_string;
  num_to_json := Z_to_string;
  type_error_message := Example.v8_message;
  JSON_parse := parse
|}.

Definition online : Dispatch.network :=
  {| Dispatch.socket_events :=
       [Socket.Connect; Socket.Data reply_text; Socket.Close];
     Dispatch.http := Dispatch.NoReply |}.

Definition broken : Dispatch.network :=
  {| Dispatch.socket_events :=
       [Socket.Connect; Socket.Data broken_text; Socket.Close];
     Dispatch.http := Dispatch.NoReply |}.

End Catalog.

(** * Facts *)

(** ** Strings and association lists *)

Lemma append_nil_r (s : string) : s ++ "" = s.
Proof. induction s as [|c s IH]; simpl; [reflexivity | now rewrite IH]. Qed.

Lemma append_assoc (a b c : string) : (a ++ b) ++ c = a ++ (b ++ c).
Proof. induction a as [|x a IH]; simpl; [reflexivity | now rewrite IH]. Qed.

Lemma contains_middle (before needle after : string) :
  contains needle (before ++ needle ++ after).
Proof. exists before, after. reflexivity. Qed.

Lemma nonempty_false (s : string) : nonempty s = false -> s = "".
Proof. destruct s; [reflexivity | discriminate]. Qed.

Lemma nonempty_true (s : string) : nonempty s = true <-> s <> "".
Proof. destruct s; simpl; split; congruence. Qed.

Lemma obj_get_set_same {A : Type} (key : string) (v : A) props :
  obj_get (obj_set key v props) key = Some v.
Proof.
  induction props as [|[k w] rest IH]; simpl.
  - now rewrite String.eqb_refl.
  - destruct (String.eqb k key) eqn:E; simpl; rewrite E; [reflexivity|exact IH].
Qed.

Lemma obj_get_set_other {A : Type} (key other : string) (v : A) props :
  key <> other -> obj_get (obj_set key v props) other = obj_get props other.
Proof.
  intros Hne. induction props as [|[k w] rest IH]; simpl.
  - apply String.eqb_neq in Hne. now rewrite Hne.
  - destruct (String.eqb k key) eqn:E; simpl.
    + apply String.eqb_eq in E; subst k.
      apply String.eqb_neq in Hne. now rewrite Hne.
    + destruct (String.eqb k other); [reflexivity | exact IH].
Qed.

Lemma obj_get_remove_same {A : Type} (key : string) (props : list (string * A)) :
  obj_get (obj_remove key props) key = None.
Proof.
  induction props as [|[k w] rest IH]; simpl; [reflexivity|].
  destruct (String.eqb k key) eqn:E; simpl; [exact IH | now rewrite E].
Qed.

Lemma obj_get_remove_other {A : Type} (key other : string)
  (props : list (string * A)) :
  key <> other -> obj_get (obj_remove key props) other = obj_get props other.
Proof.
  intros Hne. induction props as [|[k w] rest IH]; simpl; [reflexivity|].
  destruct (String.eqb k key) eqn:E; simpl.
  - apply String.eqb_eq in E; subst k.
    apply String.eqb_neq in Hne. now rewrite Hne.
  - destruct (String.eqb k other); [reflexivity | exact IH].
Qed.

Lemma obj_get_absent {A : Type} (key : string) (props : list (string * A)) :
  ~ In key (List.map fst props) -> obj_get props key = None.
Proof.
  induction props as [|[k w] rest IH]; simpl; intros Hnot; [reflexivity|].
  destruct (String.eqb_spec k key) as [->|Hne].
  - exfalso. apply Hnot. now left.
  - apply IH. intros Hin. apply Hnot. now right.
Qed.

(** ** The socket transport *)
Section SocketFacts.
Context {host : Host}.
Variable message : Js.val.

Lemma resolve_settled v s :
  Socket.promise s <> Pending ->
  Socket.promise (Socket.resolve v s) = Socket.promise s.
Proof.
  unfold Socket.resolve. destruct (Socket.promise s) eqn:E;
    intros H; [congruence | exact E | exact E].
Qed.

Lemma reject_settled e s :
  Socket.promise s <> Pending ->
  Socket.promise (Socket.reject e s) = Socket.promise s.
Proof.
  unfold Socket.reject. destruct (Socket.promise s) eqn:E;
    intros H; [congruence | exact E | exact E].
Qed.

(** A settled promise is not changed by any callback. *)
Lemma handle_settled s ev :
  Socket.promise s <> Pending ->
  Socket.promise (Socket.handle message s ev) = Socket.promise s.
Proof.
  intros H. destruct ev; simpl.
  - reflexivity.
  - unfold Socket.on_data, Socket.parse_buffer.
    destruct (JSON_parse _); [|reflexivity].
    now rewrite resolve_settled.
  - unfold Socket.on_timeout. now rewrite reject_settled.
  - unfold Socket.on_error. now rewrite reject_settled.
  - unfold Socket.on_close, Socket.parse_buffer.
    destruct (nonempty _); [|reflexivity].
    destruct (JSON_parse _);
      [now rewrite resolve_settled | now rewrite reject_settled].
Qed.

Lemma run_from_settled events : forall s,
  Socket.promise s <> Pending ->
  Socket.promise (Socket.run_from message s events) = Socket.promise s.
Proof.
  induction events as [|ev rest IH]; intros s H; simpl; [reflexivity|].
  unfold Socket.run_from in *. simpl.
  rewrite IH.
  - now apply handle_settled.
  - now rewrite handle_settled.
Qed.

Lemma run_app pre post :
  Socket.run message (pre ++ post)
  = Socket.run_from message (Socket.run message pre) post.
Proof. unfold Socket.run, Socket.run_from. apply fold_left_app. Qed.

Lemma timeout_rejects s :
  Socket.promise s = Pending ->
  Socket.promise (Socket.on_timeout s) = Rejected (Error "Socket timeout").
Proof.
  intros H. unfold Socket.on_timeout, Socket.reject. simpl.
  now rewrite H.
Qed.

Lemma after_timeout pre later :
  Socket.promise (Socket.run message pre) = Pending ->
  Socket.promise (Socket.run message (pre ++ Socket.Timeout :: later))
  = Rejected (Error "Socket timeout").
Proof.
  intros H. rewrite run_app. unfold Socket.run_from. simpl.
  fold (Socket.run_from message (Socket.on_timeout (Socket.run message pre)) later).
  rewrite run_from_settled; rewrite (timeout_rejects _ H); congruence.
Qed.

Lemma handle_awaiting_more s ev :
  Socket.awaiting_more s -> Socket.awaiting_more (Socket.handle message s ev).
Proof.
  unfold Socket.awaiting_more. intros Inv.
  destruct (Socket.promise s) eqn:P.
  - destruct ev; simpl.
    + intros _. apply Inv. reflexivity.
    + unfold Socket.on_data, Socket.parse_buffer. simpl.
      destruct (JSON_parse (trim (Socket.responseData s ++ chunk))) eqn:J.
      * unfold Socket.resolve. simpl. rewrite P. simpl. discriminate.
      * simpl. intros _. right. exists e. exact J.
    + unfold Socket.on_timeout, Socket.reject. simpl. rewrite P. simpl.
      discriminate.
    + unfold Socket.on_error, Socket.reject. rewrite P. simpl. discriminate.
    + unfold Socket.on_close, Socket.parse_buffer.
      destruct (nonempty (Socket.responseData s));
        [|intros _; apply Inv; reflexivity].
      simpl. destruct (JSON_parse _);
        unfold Socket.resolve, Socket.reject; simpl; rewrite P; simpl;
        discriminate.
  - rewrite handle_settled by congruence. rewrite P. discriminate.
  - rewrite handle_settled by congruence. rewrite P. discriminate.
Qed.

Lemma run_awaiting_more events :
  Socket.awaiting_more (Socket.run message events).
Proof.
  unfold Socket.run, Socket.run_from.
  assert (G : forall s, Socket.awaiting_more s ->
              Socket.awaiting_more
                (fold_left (Socket.handle message) events s)).
  { induction events as [|ev rest IH]; intros s Hs; simpl; [exact Hs|].
    apply IH. now apply handle_awaiting_more. }
  apply G. intros _. left. reflexivity.
Qed.

End SocketFacts.

(** C5. Once the timeout has failed a pending call, the outcome stays
    the timeout failure: a later ['close'] that finds valid JSON in the
    buffer does not resolve the promise, and neither does any event
    before or after it. *)
Theorem timeout_then_close_stays_timeout :
  forall (host : Host) (message : Js.val)
         (pre mid post : list Socket.event) (v : Js.val),
    Socket.promise (Socket.run message pre) = Pending ->
    JSON_parse
      (trim (Socket.responseData
               (Socket.run message (pre ++ Socket.Timeout :: mid)))) = Ok v ->
    let final :=
      Socket.run message (pre ++ Socket.Timeout :: mid ++ Socket.Close :: post) in
    Socket.promise final = Rejected (Error "Socket timeout")
    /\ Socket.promise final <> Fulfilled v
    /\ forall n,
         Socket.promise
           (Socket.run message
              (pre ++ Socket.Timeout :: firstn n (mid ++ Socket.Close :: post)))
         = Rejected (Error "Socket timeout").
Proof.
  intros host message pre mid post v Hpending _ final.
  assert (Hfinal : Socket.promise final = Rejected (Error "Socket timeout"))
    by (apply after_timeout; exact Hpending).
  split; [exact Hfinal|]. split.
  - rewrite Hfinal. discriminate.
  - intros n. apply after_timeout. exact Hpending.
Qed.

Lemma timeout_then_close_stays_timeout_witness :
  let pre := [Socket.Connect; Socket.Data "{"] in
  let mid := [Socket.Data "}"] in
  Socket.promise (Socket.run Example.ping_message pre) = Pending
  /\ JSON_parse
       (trim (Socket.responseData
                (Socket.run Example.ping_message (pre ++ Socket.Timeout :: mid))))
     = Ok (VObj [])
  /\ Socket.promise
       (Socket.run Example.ping_message
          (pre ++ Socket.Timeout :: mid ++ [Socket.Close]))
     = Rejected (Error "Socket timeout").
Proof.
  intros pre mid.
  split; [vm_compute; reflexivity|].
  split; [vm_compute; reflexivity|].
  apply (timeout_then_close_stays_timeout
           Example.node Example.ping_message pre mid [] (VObj []));
    vm_compute; reflexivity.
Defined.

(** C4, as the claim has it, fails: the server accepts the connection and
    closes it without sending a byte.  The ['close'] callback makes no
    parse attempt and the call is left unsettled. *)
Lemma silent_close_leaves_call_pending :
  let s := Socket.run Example.ping_message [Socket.Connect; Socket.Close] in
  Socket.responseData s = ""
  /\ Socket.parse_calls s = []
  /\ Socket.promise s = Pending
  /\ Socket.promise s <> Rejected (Error "Invalid JSON response").
Proof. vm_compute. repeat split; discriminate. Qed.

(** C4, amended.  When the remote end closes while the call is still
    pending and at least one byte has been accumulated, the ['close']
    callback parses the trimmed buffer once more and the call fails with
    ["Invalid JSON response"]; with an empty buffer the callback does
    nothing. *)
Theorem close_before_parse :
  forall (host : Host) (message : Js.val) (events : list Socket.event),
    let s := Socket.run message events in
    Socket.promise s = Pending ->
    (Socket.responseData s <> "" ->
       Socket.promise (Socket.on_close s)
       = Rejected (Error "Invalid JSON response")
       /\ Socket.parse_calls (Socket.on_close s)
          = trim (Socket.responseData s) :: Socket.parse_calls s)
    /\ (Socket.responseData s = "" -> Socket.on_close s = s).
Proof.
  intros host message events s Hpending. split.
  - intros Hbytes.
    destruct (run_awaiting_more message events Hpending) as [Hempty|[e He]];
      [contradiction|].
    fold s in He. unfold Socket.on_close, Socket.parse_buffer.
    apply nonempty_true in Hbytes. rewrite Hbytes, He.
    unfold Socket.reject. simpl. rewrite Hpending. simpl. split; reflexivity.
  - intros Hempty. unfold Socket.on_close. rewrite Hempty. reflexivity.
Qed.

Lemma close_before_parse_witness :
  let s := Socket.run Example.ping_message [Socket.Connect; Socket.Data "{"] in
  Socket.promise s = Pending
  /\ Socket.responseData s <> ""
  /\ Socket.promise (Socket.on_close s)
     = Rejected (Error "Invalid JSON response").
Proof.
  intros s.
  assert (Hp : Socket.promise s = Pending) by (vm_compute; reflexivity).
  assert (Hb : Socket.responseData s <> "") by (vm_compute; discriminate).
  split; [exact Hp|]. split; [exact Hb|].
  exact (proj1 (proj1 (close_before_parse Example.node Example.ping_message
                         [Socket.Connect; Socket.Data "{"] Hp) Hb)).
Defined.

(** ** The dispatcher *)

Lemma composite_message_embeds {host : Host} (socketErr httpErr : js_error) :
  contains (Js.error_message socketErr)
    (Dispatch.composite_message socketErr httpErr)
  /\ contains (Js.error_message httpErr)
       (Dispatch.composite_message socketErr httpErr).
Proof.
  unfold Dispatch.composite_message. split.
  - apply contains_middle.
  - exists ("Connection failed: Socket(" ++ Js.error_message socketErr
             ++ "), HTTP("), ")".
    now rewrite !append_assoc.
Qed.

Lemma sendMessage_cases {host : Host} (net : Dispatch.network)
  (message : Js.val) :
  Dispatch.sendMessage net message
  = match snd (Dispatch.sendToSocket net message) with
    | Fulfilled v => ([Dispatch.SocketTransport], Fulfilled v)
    | Pending => ([Dispatch.SocketTransport], Pending)
    | Rejected socketErr =>
        ([Dispatch.SocketTransport; Dispatch.HttpTransport],
         match snd (Dispatch.sendToHttp net message) with
         | Fulfilled v => Fulfilled v
         | Pending => Pending
         | Rejected httpErr =>
             Rejected (Error (Dispatch.composite_message socketErr httpErr))
         end)
    end.
Proof.
  unfold Dispatch.sendMessage, Dispatch.try_catch, Dispatch.sendToSocket.
  simpl. destruct (Socket.promise _); try reflexivity.
  unfold Dispatch.sendToHttp. simpl.
  destruct (Dispatch.http net) as [|e'|status body]; try reflexivity.
  destruct (negb _); [reflexivity|].
  destruct (JSON_parse body); reflexivity.
Qed.

(** C3. [sendMessage] attempts the socket first; the HTTP transport is
    attempted only after the socket attempt has been rejected; when both
    are rejected the call is rejected with one error whose message embeds
    both messages.  With the socket refused (["refused"]) and the HTTP
    status 500, both appear in the composite message. *)
Theorem sendMessage_socket_then_http :
  (forall (host : Host) (net : Dispatch.network) (message : Js.val),
     Dispatch.sendMessage net message
     = match snd (Dispatch.sendToSocket net message) with
       | Fulfilled v => ([Dispatch.SocketTransport], Fulfilled v)
       | Pending => ([Dispatch.SocketTransport], Pending)
       | Rejected socketErr =>
           ([Dispatch.SocketTransport; Dispatch.HttpTransport],
            match snd (Dispatch.sendToHttp net message) with
            | Fulfilled v => Fulfilled v
            | Pending => Pending
            | Rejected httpErr =>
                Rejected (Error (Dispatch.composite_message socketErr httpErr))
            end)
       end)
  /\ (forall (host : Host) (socketErr httpErr : js_error),
        contains (Js.error_message socketErr)
          (Dispatch.composite_message socketErr httpErr)
        /\ contains (Js.error_message httpErr)
             (Dispatch.composite_message socketErr httpErr))
  /\ (exists m,
        Dispatch.sendMessage Example.offline Example.ping_message
        = ([Dispatch.SocketTransport; Dispatch.HttpTransport],
           Rejected (Error m))
        /\ contains "refused" m /\ contains "500" m).
Proof.
  split; [intros; apply sendMessage_cases|].
  split; [intros; apply composite_message_embeds|].
  exists "Connection failed: Socket(refused), HTTP(HTTP error: 500)".
  split; [vm_compute; reflexivity|]. split.
  - exists "Connection failed: Socket(", "), HTTP(HTTP error: 500)".
    reflexivity.
  - exists "Connection failed: Socket(refused), HTTP(HTTP error: ", ")".
    reflexivity.
Qed.

(** ** The call-tool handler *)
Section CallToolFacts.
Context {host : Host}.

Lemma actors_text_nonempty a t :
  CallTool.actors_text a = Ok t -> nonempty t = true.
Proof.
  unfold CallTool.actors_text. destruct a; try discriminate.
  destruct (map_result CallTool.actor_line items); simpl; [|discriminate].
  intros H. injection H as <-. reflexivity.
Qed.

Lemma pretty_object_nonempty (props : Js.object) :
  nonempty (Js.JSON_stringify_pretty (VObj props)) = true.
Proof.
  unfold Js.JSON_stringify_pretty. simpl. unfold Js.wrap.
  destruct (List.map _ props); reflexivity.
Qed.

Lemma format_success_in_order (props : Js.object) :
  CallTool.format_success (VObj props) = Layout.blocks_in_order props.
Proof.
  unfold CallTool.format_success, Layout.blocks_in_order,
    Layout.text_pieces, Layout.image_blocks, Layout.text_blocks,
    Layout.piece, Layout.joined, Js.get_prop, Js.truthy_opt.
  cbn [bind].
  pose proof (pretty_object_nonempty props) as Hfb. revert Hfb.
  generalize (Js.JSON_stringify_pretty (VObj props)) as fallback.
  generalize (Js.or_default (@obj_get (value num) props "format") (VStr "png")) as fmt.
  generalize (@obj_get (value num) props "output") as O.
  generalize (@obj_get (value num) props "result") as R.
  generalize (@obj_get (value num) props "actors") as A.
  generalize (@obj_get (value num) props "image") as I.
  intros I A R O fmt fallback Hfb.
  destruct O as [o|];
    [destruct (Js.truthy o);
     [destruct (Js.to_string o) as [[|c s]|e]|]|];
  (destruct R as [r|];
    [destruct (Js.truthy r); [generalize (Js.JSON_stringify_pretty r) as pr; intros pr|]|]);
  (destruct A as [a|];
    [destruct (Js.truthy a);
     [destruct (CallTool.actors_text a) as [t|e'] eqn:Ha;
      [pose proof (actors_text_nonempty _ _ Ha) as Hne; destruct t as [|c' t']; [discriminate Hne|]|]|]|]);
  (destruct I as [i|];
    [destruct (Js.truthy i);
     [destruct (Js.to_string fmt) as [kind|e'']|]|]);
  simpl; rewrite ?append_assoc, ?Hfb; try reflexivity.
  all: match goal with |- ?G => idtac G end.
Qed.

Lemma format_response_success (props : Js.object) :
  Js.truthy_opt (obj_get props "success") = true ->
  CallTool.format_response (VObj props) = Layout.blocks_in_order props.
Proof.
  intros H. unfold CallTool.format_response, Js.get_prop. cbn [bind].
  unfold Js.truthy_opt in H.
  destruct (obj_get props "success") as [flag|]; [|discriminate].
  rewrite H. apply format_success_in_order.
Qed.

Lemma blocks_in_order_shape (props : Js.object) blocks :
  Layout.blocks_in_order props = Ok blocks ->
  exists images texts,
    blocks = (images ++ texts)%list
    /\ (images = [] \/ exists i m, images = [CallTool.Image i m])
    /\ (texts = [] \/ exists t, texts = [CallTool.Text t])
    /\ (images = [] -> texts <> []).
Proof.
  unfold Layout.blocks_in_order, Layout.image_blocks.
  destruct (Layout.text_pieces props) as [pieces|e]; simpl; [|discriminate].
  destruct (obj_get props "image") as [i|].
  - destruct (Js.truthy i).
    + destruct (Js.to_string _) as [kind|e]; simpl; [|discriminate].
      intros H. injection H as <-.
      exists [CallTool.Image i ("image/" ++ kind)],
        (Layout.text_blocks props pieces [CallTool.Image i ("image/" ++ kind)]).
      split; [reflexivity|]. split; [right; eauto|].
      split; [|discriminate].
      unfold Layout.text_blocks. destruct (nonempty _); [right; eauto|now left].
    + simpl. intros H. injection H as <-.
      exists [], (Layout.text_blocks props pieces []).
      split; [reflexivity|]. split; [now left|].
      unfold Layout.text_blocks.
      destruct (nonempty _); (split; [right; eauto | intros _; discriminate]).
  - simpl. intros H. injection H as <-.
    exists [], (Layout.text_blocks props pieces []).
    split; [reflexivity|]. split; [now left|].
    unfold Layout.text_blocks.
    destruct (nonempty _); (split; [right; eauto | intros _; discriminate]).
Qed.

Lemma format_response_nonempty (response : Js.val) blocks :
  CallTool.format_response response = Ok blocks -> blocks <> [].
Proof.
  unfold CallTool.format_response, Js.get_prop.
  destruct response; cbn [bind];
    try (intros H; injection H as <-; discriminate).
  - discriminate.
  - destruct (obj_get props "success") as [flag|] eqn:S.
    + destruct (Js.truthy flag) eqn:T.
      * rewrite format_success_in_order. intros H.
        destruct (blocks_in_order_shape _ _ H)
          as (images & texts & -> & _ & _ & Hne).
        destruct images; simpl; [auto|discriminate].
      * unfold CallTool.format_failure, Js.get_prop. cbn [bind].
        destruct (Js.to_string _); cbn [bind]; [|discriminate].
        intros H; injection H as <-; discriminate.
    + intros H; injection H as <-; discriminate.
Qed.
End CallToolFacts.

(** C1, as the claim has it, fails on its own example: the handler pushes
    the image block before the text block, and [JSON.stringify] is called
    with an indentation of two spaces. *)
Lemma full_response_image_first :
  CallTool.format_response (VObj Example.full_response)
  = Ok [CallTool.Image (VStr "b64") "image/jpeg";
        CallTool.Text ("A" ++ nl ++ "Result: {" ++ nl
                         ++ "  " ++ dquote ++ "x" ++ dquote ++ ": 1" ++ nl
                         ++ "}")]
  /\ CallTool.format_response (VObj Example.full_response)
     <> Ok [CallTool.Text ("A" ++ nl ++ "Result: {"
                             ++ dquote ++ "x" ++ dquote ++ ":1}");
            CallTool.Image (VStr "b64") "image/jpeg"].
Proof. split; [vm_compute; reflexivity | vm_compute; discriminate]. Qed.

(** C1, amended.  For a response whose [success] is truthy, the blocks
    are those of [Layout.blocks_in_order]: the image block first when
    [image] is truthy, then one text block made of the output, the
    ["Result: "] line with the result pretty-printed with two spaces, and
    the actor list, joined by line feeds.  There is at most one block of
    each kind. *)
Theorem success_blocks_image_then_text :
  forall (host : Host) (props : Js.object),
    Js.truthy_opt (obj_get props "success") = true ->
    CallTool.format_response (VObj props) = Layout.blocks_in_order props
    /\ forall blocks,
         CallTool.format_response (VObj props) = Ok blocks ->
         exists images texts,
           blocks = (images ++ texts)%list
           /\ (images = [] \/ exists i m, images = [CallTool.Image i m])
           /\ (texts = [] \/ exists t, texts = [CallTool.Text t]).
Proof.
  intros host props Hs.
  pose proof (format_response_success props Hs) as E.
  split; [exact E|].
  intros blocks Hb. rewrite E in Hb.
  destruct (blocks_in_order_shape _ _ Hb) as (images & texts & H1 & H2 & H3 & _).
  exists images, texts. auto.
Qed.

Lemma success_blocks_image_then_text_witness :
  Js.truthy_opt (obj_get Example.full_response "success") = true
  /\ CallTool.format_response (VObj Example.full_response)
     = Layout.blocks_in_order Example.full_response
  /\ Layout.blocks_in_order Example.full_response
     = Ok [CallTool.Image (VStr "b64") "image/jpeg";
           CallTool.Text ("A" ++ nl ++ "Result: {" ++ nl
                            ++ "  " ++ dquote ++ "x" ++ dquote ++ ": 1" ++ nl
                            ++ "}")].
Proof.
  split; [reflexivity|]. split.
  - exact (proj1 (success_blocks_image_then_text
                    Example.node Example.full_response eq_refl)).
  - vm_compute. reflexivity.
Defined.




Lemma prefix_append (a b : string) : String.prefix a (a ++ b) = true.
Proof.
  induction a as [|c a IH]; simpl.
  - destruct b; reflexivity.
  - destruct (ascii_dec c c); [exact IH | congruence].
Qed.

(** C6, as the claim has it, fails: when both transports fail, the text
    sent to the client starts with ["Failed to call tool "]. *)
Lemma transport_failure_not_prefixed :
  CallTool.handler Example.offline "ping" None
  = Fulfilled
      {| CallTool.content :=
           [CallTool.Text
              "Failed to call tool ping: Connection failed: Socket(refused), HTTP(HTTP error: 500)"];
         CallTool.isError := true |}
  /\ String.prefix "Error: "
       "Failed to call tool ping: Connection failed: Socket(refused), HTTP(HTTP error: 500)"
     = false.
Proof. split; vm_compute; reflexivity. Qed.

(** C6, amended.  A failure of both transports reaches the client as one
    text block ["Failed to call tool <name>: <message>"] with [isError]
    set; a reply whose [success] is present and falsy reaches it as one
    text block ["Error: "] followed by the [error] entry, or by
    ["Unknown error"] when that entry is falsy or absent. *)
Theorem errors_reach_client_as_text :
  forall (host : Host) (net : Dispatch.network) (name : string)
         (args : option Js.object),
    (forall error,
       snd (Dispatch.sendMessage net (CallTool.make_message name args))
       = Rejected error ->
       CallTool.handler net name args
       = Fulfilled
           {| CallTool.content :=
                [CallTool.Text ("Failed to call tool " ++ name ++ ": "
                                  ++ Js.error_message error)];
              CallTool.isError := true |})
    /\ (forall props flag shown,
          snd (Dispatch.sendMessage net (CallTool.make_message name args))
          = Fulfilled (VObj props) ->
          obj_get props "success" = Some flag ->
          Js.truthy flag = false ->
          Js.to_string
            (Js.or_default (obj_get props "error") (VStr "Unknown error"))
          = Ok shown ->
          CallTool.handler net name args
          = Fulfilled {| CallTool.content := [CallTool.Text ("Error: " ++ shown)];
                         CallTool.isError := false |}
          /\ String.prefix "Error: " ("Error: " ++ shown) = true).
Proof.
  intros host net name args. split.
  - intros error Hsent. unfold CallTool.handler. rewrite Hsent. reflexivity.
  - intros props flag shown Hsent Hflag Hfalsy Hshown.
    split; [|apply prefix_append].
    unfold CallTool.handler. rewrite Hsent.
    unfold CallTool.format_response, Js.get_prop. cbn [bind].
    rewrite Hflag, Hfalsy.
    unfold CallTool.format_failure, Js.get_prop. cbn [bind].
    rewrite Hshown. reflexivity.
Qed.

Lemma errors_reach_client_as_text_witness :
  CallTool.handler Example.offline "ping" None
  = Fulfilled
      {| CallTool.content :=
           [CallTool.Text
              ("Failed to call tool " ++ "ping" ++ ": "
                 ++ Js.error_message
                      (Error "Connection failed: Socket(refused), HTTP(HTTP error: 500)"))];
         CallTool.isError := true |}.
Proof.
  apply (proj1 (errors_reach_client_as_text Example.node Example.offline
                  "ping" None)).
  vm_compute. reflexivity.
Defined.

(** *** The outbound message *)

Lemma spread_keeps {host : Host} (key : string) (entries base : Js.object) :
  ~ In key (List.map fst entries) ->
  obj_get (CallTool.spread base (Some entries)) key = obj_get base key.
Proof.
  revert base. induction entries as [|[k v] rest IH]; intros base Hnot;
    simpl in *; [reflexivity|].
  rewrite IH by tauto. apply obj_get_set_other. tauto.
Qed.

Lemma spread_overrides {host : Host} (key : string) (v : Js.val)
  (entries base : Js.object) :
  unique_keys entries ->
  obj_get entries key = Some v ->
  obj_get (CallTool.spread base (Some entries)) key = Some v.
Proof.
  unfold unique_keys. revert base.
  induction entries as [|[k w] rest IH]; intros base Huniq Hget;
    simpl in *; [discriminate|].
  inversion Huniq as [|? ? Hfresh Hrest]; subst.
  destruct (String.eqb_spec k key) as [->|Hne].
  - injection Hget as ->.
    change (obj_get (CallTool.spread (obj_set key v base) (Some rest)) key
            = Some v).
    rewrite spread_keeps by exact Hfresh. apply obj_get_set_same.
  - apply IH; assumption.
Qed.

(** C9. When the arguments of a tool call have an entry [type], the
    [type] of the message sent to the server is that entry, not the name
    of the tool. *)
Theorem arguments_type_overrides_tool_name :
  forall (host : Host) (name : string) (args : Js.object) (v : Js.val),
    unique_keys args ->
    obj_get args "type" = Some v ->
    Js.get_prop (CallTool.make_message name (Some args)) "type" = Ok (Some v).
Proof.
  intros host name args v Huniq Hget.
  unfold CallTool.make_message, Js.get_prop.
  f_equal. now apply spread_overrides.
Qed.

Lemma arguments_type_overrides_tool_name_witness :
  Js.get_prop
    (CallTool.make_message "spawn_actor"
       (Some [("type", VStr "cube"); ("x", VNum 3%Z)]))
    "type"
  = Ok (Some (VStr "cube")).
Proof.
  apply (arguments_type_overrides_tool_name Example.node);
    [|reflexivity].
  unfold unique_keys. simpl.
  repeat constructor; simpl; intuition discriminate.
Defined.

(** Without such an entry the [type] is the name of the tool. *)
Lemma tool_name_is_message_type {host : Host} (name : string)
  (args : Js.object) :
  ~ In "type" (List.map fst args) ->
  Js.get_prop (CallTool.make_message name (Some args)) "type"
  = Ok (Some (VStr name)).
Proof.
  intros Hnot. unfold CallTool.make_message, Js.get_prop. f_equal.
  rewrite spread_keeps by exact Hnot. reflexivity.
Qed.

(** *** Presence is truthiness *)
Section Falsy.
Context {host : Host}.
Variables (props : Js.object) (field : string) (v : Js.val).
Hypothesis Hfield : obj_get props field = Some v.
Hypothesis Hfalsy : Js.truthy v = false.

Lemma piece_without key render :
  Layout.piece (obj_get (obj_remove field props) key) render
  = Layout.piece (obj_get props key) render.
Proof.
  destruct (String.eqb_spec field key) as [<-|Hne].
  - rewrite obj_get_remove_same, Hfield. simpl. now rewrite Hfalsy.
  - now rewrite obj_get_remove_other.
Qed.

Lemma text_pieces_without :
  Layout.text_pieces (obj_remove field props) = Layout.text_pieces props.
Proof. unfold Layout.text_pieces. now rewrite !piece_without. Qed.

Lemma image_blocks_without :
  field <> "format" ->
  Layout.image_blocks (obj_remove field props) = Layout.image_blocks props.
Proof.
  intros Hfmt. unfold Layout.image_blocks.
  rewrite (obj_get_remove_other field "format") by exact Hfmt.
  destruct (String.eqb_spec field "image") as [->|Hne].
  - rewrite obj_get_remove_same, Hfield. now rewrite Hfalsy.
  - now rewrite obj_get_remove_other.
Qed.

Lemma blocks_without :
  field <> "format" ->
  Layout.blocks_in_order props
  = Layout.blocks_in_order (obj_remove field props)
  \/ (Layout.blocks_in_order props
      = Ok [CallTool.Text (Js.JSON_stringify_pretty (VObj props))]
      /\ Layout.blocks_in_order (obj_remove field props)
         = Ok [CallTool.Text
                 (Js.JSON_stringify_pretty (VObj (obj_remove field props)))]).
Proof.
  intros Hfmt. unfold Layout.blocks_in_order.
  rewrite text_pieces_without, image_blocks_without by exact Hfmt.
  destruct (Layout.text_pieces props) as [pieces|e]; [|now left].
  destruct (Layout.image_blocks props) as [images|e]; [|now left].
  cbn [bind]. unfold Layout.text_blocks.
  destruct (nonempty (Layout.joined pieces)); [now left|].
  destruct images; [right; split; reflexivity | now left].
Qed.
End Falsy.

Lemma piece_falsy {host : Host} (entry : option Js.val) render :
  Js.truthy_opt entry = false -> Layout.piece entry render = Ok [].
Proof.
  unfold Js.truthy_opt, Layout.piece.
  destruct entry as [x|]; [intros ->|]; reflexivity.
Qed.

(** C10. The handler takes a field for present when its value is truthy.
    In a response whose [success] is truthy, an [output], [result],
    [actors] or [image] entry with a falsy value (the empty string, [0],
    [false], [null]) changes nothing in the blocks compared with the
    response without that entry, except that the text of the fallback
    block is the whole response as received; and when all four are falsy
    or absent the only block is that fallback.  So [{success:true,
    result:0}] gives the pretty-printed response and no ["Result: 0"]. *)
Theorem falsy_field_is_absent :
  forall (host : Host) (props : Js.object),
    Js.truthy_opt (obj_get props "success") = true ->
    (forall field v,
       In field ["output"; "result"; "actors"; "image"] ->
       obj_get props field = Some v ->
       Js.truthy v = false ->
       CallTool.format_response (VObj props)
       = CallTool.format_response (VObj (obj_remove field props))
       \/ (CallTool.format_response (VObj props)
           = Ok [CallTool.Text (Js.JSON_stringify_pretty (VObj props))]
           /\ CallTool.format_response (VObj (obj_remove field props))
              = Ok [CallTool.Text
                      (Js.JSON_stringify_pretty
                         (VObj (obj_remove field props)))]))
    /\ (Js.truthy_opt (obj_get props "output") = false ->
        Js.truthy_opt (obj_get props "result") = false ->
        Js.truthy_opt (obj_get props "actors") = false ->
        Js.truthy_opt (obj_get props "image") = false ->
        CallTool.format_response (VObj props)
        = Ok [CallTool.Text (Js.JSON_stringify_pretty (VObj props))]).
Proof.
  intros host props Hs. split.
  - intros field v Hin Hfield Hfalsy.
    assert (Hne : field <> "success" /\ field <> "format").
    { simpl in Hin.
      destruct Hin as [<-|[<-|[<-|[<-|[]]]]]; split; discriminate. }
    destruct Hne as [Hsucc Hfmt].
    rewrite (format_response_success props Hs).
    rewrite (format_response_success (obj_remove field props))
      by (rewrite obj_get_remove_other by exact Hsucc; exact Hs).
    now apply (blocks_without props field v).
  - intros Ho Hr Ha Hi.
    rewrite (format_response_success props Hs).
    unfold Layout.blocks_in_order, Layout.text_pieces, Layout.image_blocks.
    rewrite !piece_falsy by assumption. cbn [bind].
    unfold Js.truthy_opt in Hi.
    destruct (obj_get props "image") as [i|]; [rewrite Hi|]; reflexivity.
Qed.

Lemma falsy_field_is_absent_witness :
  CallTool.format_response (VObj Example.zero_result)
  = Ok [CallTool.Text (Js.JSON_stringify_pretty (VObj Example.zero_result))]
  /\ Js.JSON_stringify_pretty (VObj Example.zero_result)
     = "{" ++ nl ++ "  " ++ dquote ++ "success" ++ dquote ++ ": true," ++ nl
           ++ "  " ++ dquote ++ "result" ++ dquote ++ ": 0" ++ nl ++ "}".
Proof.
  split.
  - apply (proj2 (falsy_field_is_absent Example.node Example.zero_result
                    eq_refl)); reflexivity.
  - vm_compute. reflexivity.
Defined.

(** ** The list-tools handler *)

Lemma translate_without_catalog {host : Host} (response : Js.val) :
  response <> VNull ->
  Layout.announces_catalog response = false ->
  ListTools.translate response = Ok ListTools.minimal_tools.
Proof.
  intros Hnull Hno. unfold ListTools.translate, Js.get_prop.
  destruct response; try contradiction; try reflexivity.
  cbn [bind]. simpl in Hno.
  destruct (Js.truthy_opt (obj_get props "success")); cbn [bind];
    [|reflexivity].
  simpl in Hno. rewrite Hno. reflexivity.
Qed.

(** C2, as the claim has it, fails: when both transports fail, the
    handler logs the failure and answers with an empty tool list. *)
Lemma offline_tool_list_is_empty :
  ListTools.handler Example.offline
  = Fulfilled
      {| ListTools.tools := [];
         ListTools.stderr :=
           ["Failed to list tools: Connection failed: Socket(refused), HTTP(HTTP error: 500)"] |}
  /\ ListTools.handler Example.offline
     <> Fulfilled {| ListTools.tools := ListTools.minimal_tools;
                     ListTools.stderr := [] |}.
Proof. split; [vm_compute; reflexivity | vm_compute; discriminate]. Qed.

(** C2, amended.  When the reply is a value other than [null] whose
    [success] or [functions] entry is falsy or absent, the handler answers
    with the three fixed tools [ping], [list_actors] and
    [execute_python].  When both transports fail it answers with the
    empty list.  In no case does the handler's promise reject. *)
Theorem list_tools_without_catalog :
  forall (host : Host) (net : Dispatch.network),
    (forall response,
       snd (Dispatch.sendMessage net ListTools.list_functions_message)
       = Fulfilled response ->
       response <> VNull ->
       Layout.announces_catalog response = false ->
       ListTools.handler net
       = Fulfilled {| ListTools.tools := ListTools.minimal_tools;
                      ListTools.stderr := [] |})
    /\ (forall error,
          snd (Dispatch.sendMessage net ListTools.list_functions_message)
          = Rejected error ->
          ListTools.handler net
          = Fulfilled
              {| ListTools.tools := [];
                 ListTools.stderr :=
                   ["Failed to list tools: " ++ Js.error_message error] |})
    /\ (forall error, ListTools.handler net <> Rejected error)
    /\ List.map ListTools.tool_name ListTools.minimal_tools
       = [Some (VStr "ping"); Some (VStr "list_actors");
          Some (VStr "execute_python")].
Proof.
  intros host net. split; [|split; [|split]].
  - intros response Hsent Hnull Hno. unfold ListTools.handler.
    rewrite Hsent, (translate_without_catalog response Hnull Hno).
    reflexivity.
  - intros error Hsent. unfold ListTools.handler. rewrite Hsent. reflexivity.
  - intros error. unfold ListTools.handler.
    destruct (snd (Dispatch.sendMessage net ListTools.list_functions_message));
      try discriminate.
    destruct (ListTools.translate a); discriminate.
  - reflexivity.
Qed.

Lemma list_tools_without_catalog_witness :
  ListTools.handler Example.answers_empty_object
  = Fulfilled {| ListTools.tools := ListTools.minimal_tools;
                 ListTools.stderr := [] |}.
Proof.
  apply (proj1 (list_tools_without_catalog Example.node
                  Example.answers_empty_object) (VObj [])).
  - vm_compute. reflexivity.
  - discriminate.
  - reflexivity.
Defined.

(** *** The type of a property *)

Lemma map_type_other {host : Host} (s : string) :
  s <> "integer" -> s <> "" ->
  ListTools.map_type (Some (VStr s)) = VStr s.
Proof.
  intros Hint Hne. unfold ListTools.map_type.
  apply String.eqb_neq in Hint. rewrite Hint. simpl.
  apply nonempty_true in Hne. now rewrite Hne.
Qed.

Lemma obj_set_fresh {A : Type} (key : string) (v : A) props :
  ~ In key (List.map fst props) ->
  obj_set key v props = (props ++ [(key, v)])%list.
Proof.
  induction props as [|[k w] rest IH]; simpl; intros Hnot; [reflexivity|].
  destruct (String.eqb_spec k key) as [->|Hne]; [tauto|].
  rewrite IH by tauto. reflexivity.
Qed.

Lemma add_property_for {host : Host} acc key (spec : Js.val) :
  spec <> VNull ->
  ListTools.add_property acc (key, spec)
  = Ok (ListTools.assign key (Layout.property_for spec) acc).
Proof.
  intros Hnull. unfold ListTools.add_property, Layout.property_for.
  destruct spec; try contradiction; reflexivity.
Qed.

(** The properties of a tool follow the catalog entry by entry, in its
    order. *)
Lemma properties_follow_catalog {host : Host} (entries : Js.object) :
  forall acc,
    NoDup (List.map fst acc ++ List.map fst entries) ->
    ~ In "__proto__" (List.map fst entries) ->
    ~ In VNull (List.map snd entries) ->
    ListTools.reduce ListTools.add_property entries acc
    = Ok (acc ++ List.map (fun kv => (fst kv, Layout.property_for (snd kv)))
                   entries)%list.
Proof.
  induction entries as [|[k spec] rest IH]; intros acc Huniq Hproto Hnull;
    simpl in Huniq, Hproto, Hnull; cbn [ListTools.reduce List.map fst snd].
  - now rewrite app_nil_r.
  - rewrite add_property_for by (intros ->; apply Hnull; now left).
    cbn [bind]. unfold ListTools.assign.
    destruct (String.eqb_spec k "__proto__") as [->|_]; [tauto|].
    assert (Hfresh : ~ In k (List.map fst acc)).
    { intros Hin. apply NoDup_remove_2 in Huniq. apply Huniq.
      apply in_or_app. now left. }
    rewrite (obj_set_fresh k _ acc Hfresh).
    rewrite IH.
    + now rewrite <- app_assoc.
    + rewrite map_app. simpl. rewrite <- app_assoc. exact Huniq.
    + tauto.
    + tauto.
Qed.

(** C7, as the claim has it, fails for a declared type that is the empty
    string: it does not pass through, it becomes ["string"]. *)
Lemma empty_type_becomes_string :
  ListTools.add_property [] ("size", VObj [("type", VStr "")])
  = Ok [("size", {| ListTools.prop_type := VStr "string";
                     ListTools.prop_description := VStr "" |})]
  /\ ListTools.map_type (Some (VStr "")) <> VStr "".
Proof. split; [vm_compute; reflexivity | vm_compute; discriminate]. Qed.

(** C7, amended.  The property built for a parameter has the type
    [map_type] of the declared type: ["integer"] becomes ["number"], every
    other declared type string that is not empty passes through unchanged,
    and an absent type, like an empty one, becomes ["string"]. *)
Theorem declared_type_mapping :
  forall (host : Host),
    ListTools.map_type (Some (VStr "integer")) = VStr "number"
    /\ (forall s, s <> "integer" -> s <> "" ->
                  ListTools.map_type (Some (VStr s)) = VStr s)
    /\ ListTools.map_type None = VStr "string"
    /\ ListTools.map_type (Some (VStr "")) = VStr "string"
    /\ (forall acc key spec,
          ListTools.add_property acc (key, VObj spec)
          = Ok (ListTools.assign key
                  {| ListTools.prop_type :=
                       ListTools.map_type (obj_get spec "type");
                     ListTools.prop_description :=
                       Js.or_default (obj_get spec "description") (VStr "") |}
                  acc))
    /\ (forall parameters : Js.object,
          unique_keys parameters ->
          ~ In "__proto__" (List.map fst parameters) ->
          ~ In VNull (List.map snd parameters) ->
          ListTools.reduce ListTools.add_property parameters []
          = Ok (List.map (fun kv => (fst kv, Layout.property_for (snd kv)))
                  parameters)).
Proof.
  intros host. split; [reflexivity|].
  split; [intros s; apply map_type_other|].
  split; [reflexivity|]. split; [reflexivity|]. split; [reflexivity|].
  intros parameters Huniq Hproto Hnull.
  now rewrite (properties_follow_catalog parameters []).
Qed.

Lemma declared_type_mapping_witness :
  ListTools.map_type (Some (VStr "boolean")) = VStr "boolean".
Proof.
  apply (proj1 (proj2 (declared_type_mapping Example.node)) "boolean");
    discriminate.
Defined.

(** ** Further runs of the model on the examples of the specification *)

(** The required list keeps the keys whose [required] is truthy, in the
    order of the catalog. *)
Example required_list_in_catalog_order :
  ListTools.required_keys
    [("a", VObj [("required", VBool true)]);
     ("b", VObj [("required", VBool false)]);
     ("c", VObj [])]
  = Ok ["a"].
Proof. reflexivity. Qed.

(** A reply split over three chunks resolves the call at the third. *)
Example three_chunks_resolve_once_complete :
  Socket.promise
    (Socket.run Example.ping_message
       [Socket.Connect; Socket.Data "nu"; Socket.Data "l"])
  = Pending
  /\ Socket.promise
       (Socket.run Example.ping_message
          [Socket.Connect; Socket.Data "nu"; Socket.Data "l"; Socket.Data "l"])
     = Fulfilled VNull.
Proof. split; vm_compute; reflexivity. Qed.

(** [{success:false, error:"Actor not found"}] *)
Example remote_failure_rendering :
  CallTool.format_response
    (VObj [("success", VBool false); ("error", VStr "Actor not found")])
  = Ok [CallTool.Text "Error: Actor not found"].
Proof. reflexivity. Qed.

(** The line written to the socket is the compact JSON text of the
    message, followed by a line feed. *)
Example wire_line :
  Socket.written (Socket.run Example.ping_message [Socket.Connect])
  = ["{" ++ dquote ++ "type" ++ dquote ++ ":" ++ dquote ++ "ping" ++ dquote
         ++ "}" ++ nl].
Proof. vm_compute. reflexivity. Qed.

(** A silent close leaves [sendMessage] waiting: the HTTP transport is
    not attempted. *)
Example silent_close_never_falls_back :
  Dispatch.sendMessage Example.silent_close Example.ping_message
  = ([Dispatch.SocketTransport], Pending).
Proof. vm_compute. reflexivity. Qed.

(** * Further properties of the bridge *)

(** ** More on the socket transport *)
Section SocketCoverage.
Context {host : Host}.
Variable message : Js.val.

Ltac crush_handle :=
  unfold Socket.handle, Socket.on_data, Socket.on_close, Socket.on_timeout,
    Socket.on_error, Socket.on_connect, Socket.parse_buffer, Socket.resolve,
    Socket.reject, Socket.destroy, Socket.write, Socket.append;
  cbn [Socket.responseData Socket.promise Socket.destroyed Socket.written
       Socket.parse_calls];
  repeat match goal with
         | |- context [match ?x with _ => _ end] =>
             destruct x eqn:?;
             cbn [Socket.responseData Socket.promise Socket.destroyed
                  Socket.written Socket.parse_calls]
         end.

Lemma handle_buffer s ev :
  Socket.responseData (Socket.handle message s ev)
  = Socket.responseData s ++ Socket.received [ev].
Proof.
  destruct ev; cbn [Socket.received]; crush_handle;
    rewrite ?append_nil_r; reflexivity.
Qed.

Lemma received_app pre post :
  Socket.received (pre ++ post) = Socket.received pre ++ Socket.received post.
Proof.
  induction pre as [|ev rest IH]; simpl; [reflexivity|].
  destruct ev; rewrite IH; try reflexivity. now rewrite append_assoc.
Qed.

Lemma run_from_buffer events : forall s,
  Socket.responseData (Socket.run_from message s events)
  = Socket.responseData s ++ Socket.received events.
Proof.
  induction events as [|ev rest IH]; intros s.
  - simpl. now rewrite append_nil_r.
  - change (Socket.run_from message s (ev :: rest))
      with (Socket.run_from message (Socket.handle message s ev) rest).
    rewrite IH, handle_buffer, append_assoc.
    rewrite <- received_app. reflexivity.
Qed.


Lemma run_buffer events :
  Socket.responseData (Socket.run message events) = Socket.received events.
Proof. unfold Socket.run. now rewrite run_from_buffer. Qed.

Lemma run_snoc pre ev :
  Socket.run message (pre ++ [ev])
  = Socket.handle message (Socket.run message pre) ev.
Proof. rewrite run_app. reflexivity. Qed.


Lemma data_completes s chunk v :
  Socket.promise s = Pending ->
  JSON_parse (trim (Socket.responseData s ++ chunk)) = Ok v ->
  Socket.promise (Socket.on_data chunk s) = Fulfilled v
  /\ Socket.destroyed (Socket.on_data chunk s) = true.
Proof.
  intros Hp Hj. unfold Socket.on_data, Socket.parse_buffer, Socket.append.
  cbn [Socket.responseData]. rewrite Hj.
  unfold Socket.resolve, Socket.destroy. cbn [Socket.promise].
  rewrite Hp. split; reflexivity.
Qed.


(** What a callback can do to a pending promise. *)
Lemma handle_pending s ev :
  Socket.promise s = Pending ->
  match Socket.promise (Socket.handle message s ev) with
  | Pending => True
  | Fulfilled v =>
      (exists chunk, ev = Socket.Data chunk
         /\ JSON_parse (trim (Socket.responseData s ++ chunk)) = Ok v)
      \/ (ev = Socket.Close /\ Socket.responseData s <> ""
          /\ JSON_parse (trim (Socket.responseData s)) = Ok v)
  | Rejected e =>
      (ev = Socket.Timeout /\ e = Error "Socket timeout")
      \/ ev = Socket.Failure e
      \/ (ev = Socket.Close /\ e = Error "Invalid JSON response"
          /\ Socket.responseData s <> "")
  end.
Proof.
  intros Hp. destruct ev; cbn [Socket.handle].
  - unfold Socket.on_connect, Socket.write. cbn. now rewrite Hp.
  - unfold Socket.on_data, Socket.parse_buffer, Socket.append.
    cbn [Socket.responseData].
    destruct (JSON_parse _) eqn:J.
    + unfold Socket.resolve, Socket.destroy. cbn. rewrite Hp. cbn.
      left. eauto.
    + cbn. now rewrite Hp.
  - unfold Socket.on_timeout, Socket.reject, Socket.destroy. cbn.
    rewrite Hp. cbn. now left.
  - unfold Socket.on_error, Socket.reject. rewrite Hp. cbn. right. now left.
  - unfold Socket.on_close, Socket.parse_buffer.
    destruct (nonempty (Socket.responseData s)) eqn:N; [|now rewrite Hp].
    destruct (JSON_parse _) eqn:J.
    + unfold Socket.resolve. cbn. rewrite Hp. cbn. right.
      split; [reflexivity|]. split; [now apply nonempty_true | reflexivity].
    + unfold Socket.reject. cbn. rewrite Hp. cbn. right. right.
      split; [reflexivity|]. split; [reflexivity | now apply nonempty_true].
Qed.

End SocketCoverage.


(** X2. Once the call has settled, no later event changes its outcome. *)
Theorem settled_never_changes :
  forall (host : Host) (message : Js.val) (pre post : list Socket.event),
    Socket.promise (Socket.run message pre) <> Pending ->
    Socket.promise (Socket.run message (pre ++ post))
    = Socket.promise (Socket.run message pre).
Proof.
  intros host message pre post H. rewrite run_app.
  now apply run_from_settled.
Qed.

Lemma settled_never_changes_witness :
  Socket.promise
    (Socket.run Example.ping_message
       ([Socket.Connect; Socket.Data "{}"]
          ++ [Socket.Data "x"; Socket.Timeout; Socket.Close]))
  = Socket.promise
      (Socket.run Example.ping_message [Socket.Connect; Socket.Data "{}"]).
Proof.
  apply (settled_never_changes Example.node). vm_compute. discriminate.
Defined.



Section SocketCoverage2.
Context {host : Host}.
Variable message : Js.val.



Lemma received_no_data_after_connect events :
  Socket.received (Socket.Connect :: events) = Socket.received events.
Proof. reflexivity. Qed.


Lemma handle_destroyed s ev :
  Socket.destroyed s = true ->
  Socket.destroyed (Socket.handle message s ev) = true.
Proof.
  intros H. destruct ev; cbn [Socket.handle];
    unfold Socket.on_data, Socket.on_close, Socket.on_timeout,
      Socket.on_error, Socket.on_connect, Socket.parse_buffer, Socket.resolve,
      Socket.reject, Socket.destroy, Socket.write, Socket.append;
    cbn [Socket.responseData Socket.promise Socket.destroyed];
    repeat match goal with
           | |- context [match ?x with _ => _ end] =>
               destruct x;
               cbn [Socket.responseData Socket.promise Socket.destroyed]
           end; auto.
Qed.

Lemma run_from_destroyed events : forall s,
  Socket.destroyed s = true ->
  Socket.destroyed (Socket.run_from message s events) = true.
Proof.
  induction events as [|ev rest IH]; intros s H; [exact H|].
  change (Socket.run_from message s (ev :: rest))
    with (Socket.run_from message (Socket.handle message s ev) rest).
  apply IH. now apply handle_destroyed.
Qed.

Lemma handle_written s ev :
  Socket.written (Socket.handle message s ev)
  = (Socket.written s
       ++ repeat (Js.JSON_stringify message ++ nl)%string
            (Socket.connects [ev]))%list.
Proof.
  destruct ev; cbn [Socket.handle Socket.connects repeat];
    unfold Socket.on_data, Socket.on_close, Socket.on_timeout,
      Socket.on_error, Socket.on_connect, Socket.parse_buffer, Socket.resolve,
      Socket.reject, Socket.destroy, Socket.write, Socket.append;
    cbn [Socket.responseData Socket.promise Socket.destroyed Socket.written];
    repeat match goal with
           | |- context [match ?x with _ => _ end] =>
               destruct x;
               cbn [Socket.responseData Socket.promise Socket.destroyed
                    Socket.written]
           end; rewrite ?app_nil_r; reflexivity.
Qed.

Lemma connects_app pre post :
  Socket.connects (pre ++ post) = Socket.connects pre + Socket.connects post.
Proof.
  induction pre as [|ev rest IH]; [reflexivity|].
  destruct ev; simpl; now rewrite IH.
Qed.

End SocketCoverage2.



Lemma fulfilled_is_destroyed {host : Host} (message : Js.val)
  (events : list Socket.event) :
  forall v,
    Socket.promise (Socket.run message events) = Fulfilled v ->
    Socket.destroyed (Socket.run message events) = true.
Proof.
  induction events as [|ev pre IH] using rev_ind; [discriminate|].
  intros v Hv. rewrite run_snoc in *.
  destruct (Socket.promise (Socket.run message pre)) eqn:Hp.
  - pose proof (handle_pending message _ ev Hp) as Hcase.
    rewrite Hv in Hcase.
    destruct Hcase as [[chunk [-> Hj]]|[-> [Hne Hj]]].
    + cbn [Socket.handle]. now apply (data_completes _ _ v Hp).
    + destruct (run_awaiting_more message pre Hp) as [He|[e He]]; congruence.
  - apply handle_destroyed. now apply (IH a).
  - rewrite handle_settled in Hv by congruence. congruence.
Qed.

(** X5. A call that resolved, and a call on which the timeout fired, has
    destroyed its socket. *)
Theorem resolved_or_timed_out_socket_is_destroyed :
  forall (host : Host) (message : Js.val) (events : list Socket.event),
    (exists v, Socket.promise (Socket.run message events) = Fulfilled v)
    \/ In Socket.Timeout events ->
    Socket.destroyed (Socket.run message events) = true.
Proof.
  intros host message events [[v Hv]|Hin].
  - exact (fulfilled_is_destroyed message events v Hv).
  - apply in_split in Hin. destruct Hin as (pre & post & ->).
    change (pre ++ Socket.Timeout :: post)%list
      with (pre ++ [Socket.Timeout] ++ post)%list.
    rewrite app_assoc, run_app. apply run_from_destroyed.
    rewrite run_snoc. cbn [Socket.handle].
    unfold Socket.on_timeout, Socket.reject, Socket.destroy.
    cbn [Socket.promise].
    destruct (Socket.promise (Socket.run message pre)); reflexivity.
Qed.

Lemma resolved_or_timed_out_socket_is_destroyed_witness :
  Socket.destroyed
    (Socket.run Example.ping_message
       [Socket.Connect; Socket.Data "{"; Socket.Timeout; Socket.Close])
  = true.
Proof.
  apply (resolved_or_timed_out_socket_is_destroyed Example.node).
  right. simpl. tauto.
Defined.

(** X6. A call is rejected by the first event that finds it pending and
    is a timeout (with ["Socket timeout"]), an error (with that error), or
    a close on a buffer that is not empty (with ["Invalid JSON
    response"]). *)
Theorem rejected_by_first_failing_event :
  forall (host : Host) (message : Js.val) (events : list Socket.event)
         (e : js_error),
    Socket.promise (Socket.run message events) = Rejected e ->
    exists pre ev post,
      events = (pre ++ ev :: post)%list
      /\ Socket.promise (Socket.run message pre) = Pending
      /\ ((ev = Socket.Timeout /\ e = Error "Socket timeout")
          \/ ev = Socket.Failure e
          \/ (ev = Socket.Close /\ e = Error "Invalid JSON response"
              /\ Socket.received pre <> "")).
Proof.
  intros host message events e.
  induction events as [|ev pre IH] using rev_ind; [discriminate|].
  intros Hr.
  destruct (Socket.promise (Socket.run message pre)) eqn:Hp.
  - rewrite run_snoc in Hr.
    pose proof (handle_pending message _ ev Hp) as Hcase.
    rewrite Hr in Hcase. rewrite run_buffer in Hcase.
    exists pre, ev, []. repeat split; assumption.
  - rewrite run_app, run_from_settled in Hr by congruence. congruence.
  - rewrite run_app, run_from_settled in Hr by congruence.
    rewrite Hp in Hr. injection Hr as ->.
    destruct (IH eq_refl) as (p & ev0 & post & -> & H1 & H2).
    exists p, ev0, (post ++ [ev])%list.
    rewrite <- app_assoc. repeat split; assumption.
Qed.

Lemma rejected_by_first_failing_event_witness :
  exists pre ev post,
    [Socket.Connect; Socket.Data "{"; Socket.Close; Socket.Timeout]
    = (pre ++ ev :: post)%list
    /\ Socket.promise (Socket.run Example.ping_message pre) = Pending
    /\ ((ev = Socket.Timeout /\ Error "Invalid JSON response" = Error "Socket timeout")
        \/ ev = Socket.Failure (Error "Invalid JSON response")
        \/ (ev = Socket.Close
            /\ Error "Invalid JSON response" = Error "Invalid JSON response"
            /\ Socket.received pre <> "")).
Proof.
  apply (rejected_by_first_failing_event Example.node Example.ping_message).
  vm_compute. reflexivity.
Defined.

(** X7. The request is written once per connection, as the compact JSON
    text of the message followed by a line feed; no other callback writes
    to the socket. *)
Theorem request_written_once_per_connect :
  forall (host : Host) (message : Js.val) (events : list Socket.event),
    Socket.written (Socket.run message events)
    = repeat (Js.JSON_stringify message ++ nl) (Socket.connects events).
Proof.
  intros host message events.
  induction events as [|ev pre IH] using rev_ind; [reflexivity|].
  rewrite run_snoc, handle_written, IH, connects_app.
  now rewrite repeat_app.
Qed.

(** *** The line on the wire *)

Lemma has_lf_app (a b : string) : has_lf (a ++ b) = has_lf a || has_lf b.
Proof.
  induction a as [|c a IH]; simpl; [reflexivity|].
  now rewrite IH, orb_assoc.
Qed.

Lemma has_lf_concat (sep : string) (items : list string) :
  has_lf sep = false ->
  Forall (fun s => has_lf s = false) items ->
  has_lf (String.concat sep items) = false.
Proof.
  intros Hsep Hall. induction Hall as [|x rest Hx Hrest IH]; [reflexivity|].
  destruct rest as [|y rest']; [exact Hx|].
  change (String.concat sep (x :: y :: rest'))
    with (x ++ sep ++ String.concat sep (y :: rest')).
  now rewrite !has_lf_app, Hx, Hsep, IH.
Qed.

Section WireLine.
Context {host : Host}.
Hypothesis numbers_on_one_line : forall n, has_lf (num_to_json n) = false.

Lemma quote_char_one_line c : has_lf (Js.quote_char c) = false.
Proof.
  destruct c as [[] [] [] [] [] [] [] []]; vm_compute; reflexivity.
Qed.

Lemma quote_one_line s : has_lf (Js.quote s) = false.
Proof.
  unfold Js.quote. rewrite !has_lf_app.
  assert (H : has_lf (Js.quote_body s) = false).
  { induction s as [|c s IH]; [reflexivity|].
    cbn [Js.quote_body]. now rewrite has_lf_app, quote_char_one_line, IH. }
  rewrite H. reflexivity.
Qed.

Lemma wrap_one_line (open close indent : string) members :
  has_lf open = false -> has_lf close = false ->
  Forall (fun s => has_lf s = false) members ->
  has_lf (Js.wrap open close "" indent members) = false.
Proof.
  intros Ho Hc Hall. unfold Js.wrap.
  destruct members as [|m rest]; [now rewrite has_lf_app, Ho, Hc|].
  cbn [nonempty]. rewrite !has_lf_app, Ho, Hc.
  rewrite has_lf_concat; [reflexivity | reflexivity | exact Hall].
Qed.

Lemma stringify_one_line (v : Js.val) :
  forall indent, has_lf (Js.stringify "" indent v) = false.
Proof.
  induction v using value_induction; intros indent; cbn [Js.stringify].
  - reflexivity.
  - now destruct b.
  - apply numbers_on_one_line.
  - apply quote_one_line.
  - apply wrap_one_line; try reflexivity.
    induction H as [|x rest Hx Hrest IH]; constructor; auto.
  - apply wrap_one_line; try reflexivity.
    induction H as [|[k x] rest Hx Hrest IH]; constructor; auto.
    cbn [nonempty]. rewrite !has_lf_app, quote_one_line. simpl. apply Hx.
Qed.

End WireLine.

Lemma uint_one_line (d : Decimal.uint) :
  has_lf (NilEmpty.string_of_uint d) = false.
Proof. induction d; simpl; auto. Qed.

Lemma Z_to_string_one_line (z : Z) : has_lf (Z_to_string z) = false.
Proof.
  unfold Z_to_string, NilZero.string_of_int.
  destruct (Z.to_int z) as [d|d]; unfold NilZero.string_of_uint.
  - destruct d; try apply uint_one_line; reflexivity.
  - simpl. destruct d; try apply uint_one_line; reflexivity.
Qed.

Lemma written_lines {host : Host} (message : Js.val)
  (events : list Socket.event) (line : string) :
  In line (Socket.written (Socket.run message events)) ->
  line = Js.JSON_stringify message ++ nl.
Proof.
  induction events as [|ev pre IH] using rev_ind; [contradiction|].
  rewrite run_snoc, handle_written. intros Hin.
  apply in_app_or in Hin. destruct Hin as [Hin|Hin]; [auto|].
  now apply repeat_spec in Hin.
Qed.

(** X8. Every line written to the socket ends with its only line feed:
    the JSON text of the message has none, whatever strings the arguments
    carry (provided the host prints numbers on one line). *)
Theorem request_is_one_line :
  forall (host : Host),
    (forall n, has_lf (num_to_json n) = false) ->
    forall (message : Js.val) (events : list Socket.event) (line : string),
      In line (Socket.written (Socket.run message events)) ->
      exists body, line = body ++ nl /\ has_lf body = false.
Proof.
  intros host Hnum message events line Hin.
  apply written_lines in Hin. subst line.
  exists (Js.JSON_stringify message). split; [reflexivity|].
  now apply stringify_one_line.
Qed.

Lemma request_is_one_line_witness :
  let message :=
    CallTool.make_message "execute_python"
      (Some [("code", VStr ("a" ++ nl ++ "b"))]) in
  exists body,
    Js.JSON_stringify message ++ nl = body ++ nl /\ has_lf body = false.
Proof.
  intros message.
  apply (request_is_one_line Example.node Z_to_string_one_line message
           [Socket.Connect]).
  left. reflexivity.
Defined.

(** ** More on the dispatcher *)

(** X9. [sendMessage] never passes on the error of a single transport:
    when it is rejected, both transports were rejected and the error is
    the composite one, whose message starts with ["Connection failed:
    Socket("]. *)
Theorem rejection_is_always_composite :
  forall (host : Host) (net : Dispatch.network) (message : Js.val)
         (e : js_error),
    snd (Dispatch.sendMessage net message) = Rejected e ->
    exists socketErr httpErr,
      snd (Dispatch.sendToSocket net message) = Rejected socketErr
      /\ snd (Dispatch.sendToHttp net message) = Rejected httpErr
      /\ e = Error (Dispatch.composite_message socketErr httpErr)
      /\ String.prefix "Connection failed: Socket(" (Js.error_message e)
         = true.
Proof.
  intros host net message e. rewrite sendMessage_cases.
  destruct (snd (Dispatch.sendToSocket net message)) as [|v|socketErr];
    cbn [snd]; try discriminate.
  destruct (snd (Dispatch.sendToHttp net message)) as [|v|httpErr];
    try discriminate.
  intros H. injection H as <-.
  exists socketErr, httpErr. repeat split.
  unfold Dispatch.composite_message. cbn [Js.error_message].
  apply prefix_append.
Qed.

Lemma rejection_is_always_composite_witness :
  exists socketErr httpErr,
    snd (Dispatch.sendToSocket Example.offline Example.ping_message)
    = Rejected socketErr
    /\ snd (Dispatch.sendToHttp Example.offline Example.ping_message)
       = Rejected httpErr
    /\ Error "Connection failed: Socket(refused), HTTP(HTTP error: 500)"
       = Error (Dispatch.composite_message socketErr httpErr)
    /\ String.prefix "Connection failed: Socket("
         (Js.error_message
            (Error "Connection failed: Socket(refused), HTTP(HTTP error: 500)"))
       = true.
Proof.
  apply (rejection_is_always_composite Example.node Example.offline
           Example.ping_message).
  vm_compute. reflexivity.
Defined.

(** X10. [sendMessage] has no deadline of its own: it never settles
    exactly when the socket call never settles, or the socket call was
    rejected and [fetch] never answers. *)
Theorem dispatch_hangs_exactly_when :
  forall (host : Host) (net : Dispatch.network) (message : Js.val),
    snd (Dispatch.sendMessage net message) = Pending
    <-> (snd (Dispatch.sendToSocket net message) = Pending
         \/ ((exists socketErr,
                snd (Dispatch.sendToSocket net message) = Rejected socketErr)
             /\ Dispatch.http net = Dispatch.NoReply)).
Proof.
  intros host net message. rewrite sendMessage_cases.
  destruct (snd (Dispatch.sendToSocket net message)) as [|v|socketErr];
    cbn [snd].
  - split; [now left | reflexivity].
  - split; [discriminate|]. intros [H|[[e H] _]]; discriminate.
  - unfold Dispatch.sendToHttp. cbn [snd].
    destruct (Dispatch.http net) as [|e|status body].
    + split; [right; split; [eauto | reflexivity] | reflexivity].
    + split; [discriminate|]. intros [H|[_ H]]; discriminate.
    + destruct (negb (Dispatch.response_ok status)).
      * split; [discriminate|]. intros [H|[_ H]]; discriminate.
      * destruct (JSON_parse body);
          (split; [discriminate|]; intros [H|[_ H]]; discriminate).
Qed.

(** X11. The HTTP transport answers with a value exactly when the status
    is between 200 and 299 and the body is valid JSON; with any other
    status it fails with ["HTTP error: <status>"] and the body is not
    read. *)
Theorem http_reply_needs_success_status :
  forall (host : Host) (net : Dispatch.network) (message : Js.val),
    (forall v,
       snd (Dispatch.sendToHttp net message) = Fulfilled v
       <-> exists status body,
             Dispatch.http net = Dispatch.Reply status body
             /\ (200 <= status <= 299)%N
             /\ JSON_parse body = Ok v)
    /\ (forall status body,
          Dispatch.http net = Dispatch.Reply status body ->
          ~ (200 <= status <= 299)%N ->
          snd (Dispatch.sendToHttp net message)
          = Rejected (Error ("HTTP error: " ++ N_to_string status))).
Proof.
  intros host net message.
  assert (Hok : forall status,
             Dispatch.response_ok status = true <-> (200 <= status <= 299)%N).
  { intros status. unfold Dispatch.response_ok.
    rewrite andb_true_iff, !N.leb_le. tauto. }
  unfold Dispatch.sendToHttp. cbn [snd]. split.
  - intros v. destruct (Dispatch.http net) as [|e|status body].
    + split; [discriminate | intros (? & ? & H & _); discriminate].
    + split; [discriminate | intros (? & ? & H & _); discriminate].
    + destruct (Dispatch.response_ok status) eqn:E; cbn [negb].
      * destruct (JSON_parse body) as [w|e] eqn:J.
        -- split.
           ++ intros H. injection H as ->. exists status, body.
              split; [reflexivity|]. split; [now apply Hok | exact J].
           ++ intros (s' & b' & H & _ & J'). injection H as <- <-.
              congruence.
        -- split; [discriminate|].
           intros (s' & b' & H & _ & J'). injection H as <- <-. congruence.
      * split; [discriminate|].
        intros (s' & b' & H & Hr & _). injection H as <- <-.
        apply Hok in Hr. congruence.
  - intros status body -> Hout.
    destruct (Dispatch.response_ok status) eqn:E; [|reflexivity].
    apply Hok in E. contradiction.
Qed.

Lemma http_reply_needs_success_status_witness :
  snd (Dispatch.sendToHttp
         {| Dispatch.socket_events := []; Dispatch.http := Dispatch.Reply 300 "{}" |}
         Example.ping_message)
  = Rejected (Error ("HTTP error: " ++ N_to_string 300)).
Proof.
  apply (proj2 (http_reply_needs_success_status Example.node _ _) 300%N "{}").
  - reflexivity.
  - lia.
Defined.

(** ** More on the list-tools handler *)

Lemma map_result_Forall {A B : Type} (f : A -> result B) (R : B -> Prop) l :
  (forall a b, f a = Ok b -> R b) ->
  forall out, map_result f l = Ok out -> Forall R out.
Proof.
  intros Hf. induction l as [|a rest IH]; intros out; cbn [map_result].
  - intros H. injection H as <-. constructor.
  - destruct (f a) as [b|e] eqn:Fa; cbn [bind]; [|discriminate].
    destruct (map_result f rest) as [bs|e]; cbn [bind]; [|discriminate].
    intros H. injection H as <-. constructor; eauto.
Qed.

Lemma map_result_map {A B C : Type} (f : A -> result B) (g : B -> C)
  (h : A -> C) l :
  (forall a b, f a = Ok b -> g b = h a) ->
  forall out, map_result f l = Ok out -> List.map g out = List.map h l.
Proof.
  intros Hf. induction l as [|a rest IH]; intros out; cbn [map_result].
  - intros H. injection H as <-. reflexivity.
  - destruct (f a) as [b|e] eqn:Fa; cbn [bind]; [|discriminate].
    destruct (map_result f rest) as [bs|e]; cbn [bind]; [|discriminate].
    intros H. injection H as <-. simpl. f_equal; eauto.
Qed.

Lemma map_result_throws {A B : Type} (f : A -> result B) l a :
  In a l -> (exists e, f a = Throw e) -> exists e, map_result f l = Throw e.
Proof.
  intros Hin [e He]. induction l as [|x rest IH]; [contradiction|].
  cbn [map_result]. destruct Hin as [->|Hin].
  - rewrite He. cbn [bind]. eauto.
  - destruct (f x); cbn [bind]; [|eauto].
    destruct (IH Hin) as [e' ->]. cbn [bind]. eauto.
Qed.

Section ListToolsCoverage.
Context {host : Host}.

Lemma get_prop_declared (v : Js.val) (p : string) :
  v <> VNull -> Js.get_prop v p = Ok (Layout.declared v p).
Proof. destruct v; try contradiction; reflexivity. Qed.

Lemma map_type_shape (d : option Js.val) :
  ListTools.map_type d <> VStr "integer"
  /\ Js.truthy (ListTools.map_type d) = true.
Proof.
  assert (G : forall x : Js.val,
             x <> VStr "integer" ->
             Js.or_default (Some x) (VStr "string") <> VStr "integer"
             /\ Js.truthy (Js.or_default (Some x) (VStr "string")) = true).
  { intros x Hx. unfold Js.or_default.
    destruct (Js.truthy x) eqn:T;
      [split; [exact Hx | exact T] | split; [discriminate | reflexivity]]. }
  unfold ListTools.map_type.
  destruct d as [x|]; [|split; [discriminate | reflexivity]].
  destruct x as [|b|n|s|items|props]; try (apply G; discriminate).
  destruct (String.eqb_spec s "integer") as [->|Hne];
    [split; [discriminate | reflexivity]|].
  apply G. congruence.
Qed.

Lemma obj_set_Forall {A : Type} (Q : string * A -> Prop) key (v : A) props :
  Q (key, v) -> Forall Q props -> Forall Q (obj_set key v props).
Proof.
  intros Hnew Hall. induction Hall as [|[k w] rest Hx Hrest IH]; simpl.
  - constructor; [exact Hnew | constructor].
  - destruct (String.eqb_spec k key) as [->|Hne]; constructor; assumption.
Qed.

Lemma add_property_typed acc entry acc' :
  ListTools.add_property acc entry = Ok acc' ->
  Forall Layout.typed_well acc -> Forall Layout.typed_well acc'.
Proof.
  destruct entry as [key spec]. unfold ListTools.add_property.
  destruct (Js.get_prop spec "type") as [d|e]; cbn [bind]; [|discriminate].
  destruct (Js.get_prop spec "description") as [t|e]; cbn [bind];
    [|discriminate].
  intros H Hacc. injection H as <-. unfold ListTools.assign.
  destruct (String.eqb key "__proto__"); [exact Hacc|].
  apply obj_set_Forall; [apply map_type_shape | exact Hacc].
Qed.

Lemma reduce_typed entries : forall acc props,
  ListTools.reduce ListTools.add_property entries acc = Ok props ->
  Forall Layout.typed_well acc -> Forall Layout.typed_well props.
Proof.
  induction entries as [|entry rest IH]; intros acc props;
    cbn [ListTools.reduce].
  - intros H. injection H as <-. auto.
  - destruct (ListTools.add_property acc entry) as [acc'|e] eqn:A;
      cbn [bind]; [|discriminate].
    intros H Hacc. apply (IH acc' props H).
    now apply (add_property_typed acc entry).
Qed.


Lemma to_tool_inv (func : Js.val) (t : ListTools.tool) :
  ListTools.to_tool func = Ok t ->
  func <> VNull
  /\ ListTools.tool_name t = Layout.declared func "name"
  /\ Js.truthy (ListTools.tool_description t) = true
  /\ ListTools.schema_type (ListTools.inputSchema t) = "object"
  /\ ListTools.reduce ListTools.add_property (Layout.parameter_entries func) []
     = Ok (ListTools.properties (ListTools.inputSchema t))
  /\ exists req,
       ListTools.required_keys (Layout.parameter_entries func) = Ok req
       /\ ListTools.required (ListTools.inputSchema t) = Some req.
Proof.
  intros H.
  assert (Hnull : func <> VNull) by (intros ->; discriminate H).
  split; [exact Hnull|]. revert H. unfold ListTools.to_tool.
  rewrite !(get_prop_declared func) by exact Hnull. cbn [bind].
  fold (Layout.parameter_entries func).
  set (description :=
         match Layout.declared func "description" with
         | Some d => _
         | None => _
         end).
  assert (Hd : forall d, description = Ok d -> Js.truthy d = true).
  { intros d. unfold description.
    destruct (Layout.declared func "description") as [x|].
    - destruct (Js.truthy x) eqn:T.
      + intros E. injection E as <-. exact T.
      + destruct (Js.to_string_opt _); cbn [bind]; [|discriminate].
        intros E. injection E as <-. reflexivity.
    - destruct (Js.to_string_opt _); cbn [bind]; [|discriminate].
      intros E. injection E as <-. reflexivity. }
  destruct description as [d|e]; cbn [bind]; [|discriminate].
  destruct (ListTools.reduce _ _ _) as [props|e]; cbn [bind]; [|discriminate].
  destruct (ListTools.required_keys _) as [req|e]; cbn [bind];
    [|discriminate].
  intros H. injection H as <-. cbn.
  repeat split; auto. exists req. split; reflexivity.
Qed.

Lemma translate_cases (response : Js.val) (ts : list ListTools.tool) :
  ListTools.translate response = Ok ts ->
  ts = ListTools.minimal_tools
  \/ exists props funcs,
       response = VObj props
       /\ Js.truthy_opt (obj_get props "success") = true
       /\ obj_get props "functions" = Some (VArr funcs)
       /\ map_result ListTools.to_tool funcs = Ok ts.
Proof.
  unfold ListTools.translate, Js.get_prop.
  destruct response; cbn [bind]; try discriminate;
    try (intros H; injection H as <-; now left).
  destruct (Js.truthy_opt (obj_get props "success")) eqn:S; cbn [bind];
    [|intros H; injection H as <-; now left].
  destruct (obj_get props "functions") as [f|] eqn:F; cbn [andb Js.truthy_opt];
    [|intros H; injection H as <-; now left].
  destruct (Js.truthy f) eqn:T; [|intros H; injection H as <-; now left].
  destruct f; try discriminate.
  intros H. right. exists props, items. auto.
Qed.

Lemma handler_tools (net : Dispatch.network) (reply : ListTools.reply) :
  ListTools.handler net = Fulfilled reply ->
  ListTools.tools reply = []
  \/ exists response,
       snd (Dispatch.sendMessage net ListTools.list_functions_message)
       = Fulfilled response
       /\ ListTools.translate response = Ok (ListTools.tools reply).
Proof.
  unfold ListTools.handler.
  destruct (snd (Dispatch.sendMessage net ListTools.list_functions_message))
    as [|response|e]; try discriminate.
  - destruct (ListTools.translate response) as [ts|e] eqn:T;
      intros H; injection H as <-; [right; eauto | now left].
  - intros H; injection H as <-. now left.
Qed.

(** A property of tools that holds of the three fixed tools and of every
    tool built from a function holds of every tool the handler returns. *)
Lemma every_listed_tool (R : ListTools.tool -> Prop) :
  Forall R ListTools.minimal_tools ->
  (forall func t, ListTools.to_tool func = Ok t -> R t) ->
  forall net reply,
    ListTools.handler net = Fulfilled reply ->
    Forall R (ListTools.tools reply).
Proof.
  intros Hmin Hbuilt net reply H.
  destruct (handler_tools net reply H) as [->|(response & _ & T)];
    [constructor|].
  destruct (translate_cases _ _ T) as [->|(props & funcs & _ & _ & _ & M)];
    [exact Hmin|].
  exact (map_result_Forall _ R funcs Hbuilt _ M).
Qed.

End ListToolsCoverage.

(** X12. No tool returned by the list handler declares a property of
    type ["integer"], and every property has a type that is not empty. *)
Theorem listed_property_types :
  forall (host : Host) (net : Dispatch.network) (reply : ListTools.reply),
    ListTools.handler net = Fulfilled reply ->
    Forall (fun t =>
              Forall Layout.typed_well
                (ListTools.properties (ListTools.inputSchema t)))
      (ListTools.tools reply).
Proof.
  intros host. apply every_listed_tool.
  - repeat constructor; discriminate.
  - intros func t H.
    destruct (to_tool_inv func t H) as (_ & _ & _ & _ & Hprops & _).
    apply (reduce_typed _ _ _ Hprops). constructor.
Qed.

(** X13. Every tool returned by the list handler has a description that is
    not empty and an input schema of type ["object"]. *)
Theorem listed_tools_are_described :
  forall (host : Host) (net : Dispatch.network) (reply : ListTools.reply),
    ListTools.handler net = Fulfilled reply ->
    Forall (fun t =>
              Js.truthy (ListTools.tool_description t) = true
              /\ ListTools.schema_type (ListTools.inputSchema t) = "object")
      (ListTools.tools reply).
Proof.
  intros host. apply every_listed_tool.
  - repeat constructor.
  - intros func t H.
    destruct (to_tool_inv func t H) as (_ & _ & Hd & Ho & _). auto.
Qed.



Section ListToolsCoverage2.
Context {host : Host}.

Lemma translate_catalog (props : Js.object) (funcs : list Js.val) :
  Js.truthy_opt (obj_get props "success") = true ->
  obj_get props "functions" = Some (VArr funcs) ->
  ListTools.translate (VObj props) = map_result ListTools.to_tool funcs.
Proof.
  intros Hs Hf. unfold ListTools.translate, Js.get_prop. cbn [bind].
  rewrite Hs. cbn [bind]. rewrite Hf. reflexivity.
Qed.

Lemma get_prop_ok (v : Js.val) (p : string) (x : option Js.val) :
  Js.get_prop v p = Ok x -> v <> VNull /\ x = Layout.declared v p.
Proof.
  destruct v; cbn; try discriminate;
    (intros H; injection H as <-; split; [discriminate | reflexivity]).
Qed.

Lemma required_keys_filter (entries : Js.object) : forall req,
  ListTools.required_keys entries = Ok req ->
  req = Layout.required_of entries.
Proof.
  unfold Layout.required_of.
  induction entries as [|[k v] rest IH]; intros req;
    cbn [ListTools.required_keys].
  - intros H. injection H as <-. reflexivity.
  - destruct (Js.get_prop v "required") as [flag|e] eqn:G; cbn [bind];
      [|discriminate].
    destruct (ListTools.required_keys rest) as [ks|e]; cbn [bind];
      [|discriminate].
    intros H. injection H as <-.
    destruct (get_prop_ok _ _ _ G) as [_ ->].
    cbn [List.filter snd]. rewrite (IH ks eq_refl).
    destruct (Js.truthy_opt _); reflexivity.
Qed.

Lemma required_keys_total (entries : Js.object) :
  ~ In VNull (List.map snd entries) ->
  ListTools.required_keys entries = Ok (Layout.required_of entries).
Proof.
  unfold Layout.required_of.
  induction entries as [|[k v] rest IH]; intros Hnull; [reflexivity|].
  cbn [ListTools.required_keys]. simpl in Hnull.
  rewrite get_prop_declared by (intros ->; tauto). cbn [bind].
  rewrite IH by tauto. cbn [bind List.filter snd].
  destruct (Js.truthy_opt _); reflexivity.
Qed.

Lemma has_key_obj_set {A : Type} (key other : string) (v : A) props :
  has_key (obj_set key v props) other
  = (String.eqb key other || has_key props other)%bool.
Proof.
  induction props as [|[k w] rest IH]; simpl.
  - now rewrite orb_false_r.
  - destruct (String.eqb_spec k key) as [->|Hne]; simpl.
    + destruct (String.eqb key other); reflexivity.
    + rewrite IH. destruct (String.eqb k other), (String.eqb key other);
        reflexivity.
Qed.

Lemma reduce_keeps_keys entries : forall acc props key,
  ListTools.reduce ListTools.add_property entries acc = Ok props ->
  has_key acc key = true
  \/ (In key (List.map fst entries) /\ key <> "__proto__") ->
  has_key props key = true.
Proof.
  induction entries as [|[k spec] rest IH]; intros acc props key;
    cbn [ListTools.reduce].
  - intros H. injection H as <-. simpl. tauto.
  - destruct (ListTools.add_property acc (k, spec)) as [acc'|e] eqn:A;
      cbn [bind]; [|discriminate].
    intros H Hkey. apply (IH acc' props key H).
    unfold ListTools.add_property in A.
    destruct (Js.get_prop spec "type"); cbn [bind] in A; [|discriminate].
    destruct (Js.get_prop spec "description"); cbn [bind] in A;
      [|discriminate].
    injection A as <-. unfold ListTools.assign.
    destruct Hkey as [Hacc|[Hin Hproto]].
    + left. destruct (String.eqb k "__proto__"); [exact Hacc|].
      rewrite has_key_obj_set, Hacc. apply orb_true_r.
    + simpl in Hin. destruct Hin as [->|Hin]; [|right; tauto].
      left. apply String.eqb_neq in Hproto. rewrite Hproto.
      rewrite has_key_obj_set, String.eqb_refl. reflexivity.
Qed.

Lemma required_of_in (entries : Js.object) key :
  In key (Layout.required_of entries) -> In key (List.map fst entries).
Proof.
  unfold Layout.required_of. rewrite !in_map_iff.
  intros ([k v] & <- & Hin). apply filter_In in Hin.
  exists (k, v). tauto.
Qed.

End ListToolsCoverage2.

(** X14. A catalog that translates gives one tool per function, in the
    order of the catalog, each with the name of its function. *)
Theorem tools_follow_functions :
  forall (host : Host) (props : Js.object) (funcs : list Js.val)
         (ts : list ListTools.tool),
    Js.truthy_opt (obj_get props "success") = true ->
    obj_get props "functions" = Some (VArr funcs) ->
    ListTools.translate (VObj props) = Ok ts ->
    List.map ListTools.tool_name ts
    = List.map (fun func => Layout.declared func "name") funcs
    /\ length ts = length funcs.
Proof.
  intros host props funcs ts Hs Hf Ht.
  rewrite (translate_catalog props funcs Hs Hf) in Ht.
  assert (Hnames : List.map ListTools.tool_name ts
                   = List.map (fun func => Layout.declared func "name") funcs).
  { apply (map_result_map ListTools.to_tool _ _ funcs); [|exact Ht].
    intros func t H. now destruct (to_tool_inv func t H) as (_ & -> & _). }
  split; [exact Hnames|].
  apply (f_equal (@length _)) in Hnames. now rewrite !length_map in Hnames.
Qed.


(** X15. The required list of a tool is made of the keys of the
    parameters whose [required] is truthy, in the order of the catalog,
    and each of them, [__proto__] apart, is a key of [properties]. *)
Theorem required_keys_are_properties :
  forall (host : Host) (func : Js.val) (t : ListTools.tool),
    ListTools.to_tool func = Ok t ->
    ListTools.required (ListTools.inputSchema t)
    = Some (Layout.required_of (Layout.parameter_entries func))
    /\ forall key,
         In key (Layout.required_of (Layout.parameter_entries func)) ->
         key <> "__proto__" ->
         has_key (ListTools.properties (ListTools.inputSchema t)) key = true.
Proof.
  intros host func t H.
  destruct (to_tool_inv func t H)
    as (_ & _ & _ & _ & Hprops & req & Hreq & Hsome).
  apply required_keys_filter in Hreq. subst req. split; [exact Hsome|].
  intros key Hin Hproto.
  apply (reduce_keeps_keys _ _ _ key Hprops).
  right. split; [now apply required_of_in | exact Hproto].
Qed.


(** X16. One [null] entry in the list of functions loses the whole
    catalog: the handler logs the [TypeError] and answers with no tool at
    all, not even those of the other entries. *)
Theorem null_function_discards_catalog :
  forall (host : Host) (net : Dispatch.network) (props : Js.object)
         (funcs : list Js.val),
    snd (Dispatch.sendMessage net ListTools.list_functions_message)
    = Fulfilled (VObj props) ->
    Js.truthy_opt (obj_get props "success") = true ->
    obj_get props "functions" = Some (VArr funcs) ->
    In VNull funcs ->
    exists e, ListTools.handler net = Fulfilled (ListTools.failed e)
              /\ ListTools.tools (ListTools.failed e) = [].
Proof.
  intros host net props funcs Hsent Hs Hf Hin.
  unfold ListTools.handler. rewrite Hsent.
  rewrite (translate_catalog props funcs Hs Hf).
  destruct (map_result_throws ListTools.to_tool funcs VNull Hin) as [e ->].
  - eexists. reflexivity.
  - exists e. split; reflexivity.
Qed.


(** X17. The tool built from a well-formed function (a name that is a
    string, parameters that are an object without [null] values and
    without a [__proto__] key): the same name, the description or, when it
    is falsy or absent, ["KarianaUMCP tool: <name>"], one property per
    parameter in the order of the catalog, and the required list. *)
Theorem well_formed_function_translates :
  forall (host : Host) (entries parameters : Js.object) (name : string),
    obj_get entries "name" = Some (VStr name) ->
    obj_get entries "parameters" = Some (VObj parameters) ->
    unique_keys parameters ->
    ~ In "__proto__" (List.map fst parameters) ->
    ~ In VNull (List.map snd parameters) ->
    ListTools.to_tool (VObj entries)
    = Ok {| ListTools.tool_name := Some (VStr name);
            ListTools.tool_description :=
              Js.or_default (obj_get entries "description")
                (VStr ("KarianaUMCP tool: " ++ name));
            ListTools.inputSchema :=
              {| ListTools.schema_type := "object";
                 ListTools.properties :=
                   List.map
                     (fun kv => (fst kv, Layout.property_for (snd kv)))
                     parameters;
                 ListTools.required :=
                   Some (Layout.required_of parameters) |} |}.
Proof.
  intros host entries parameters name Hname Hparams Huniq Hproto Hnull.
  unfold ListTools.to_tool, Js.get_prop. cbn [bind].
  rewrite Hname, Hparams. cbn [Js.to_string_opt Js.to_string bind].
  assert (Hd :
    match obj_get entries "description" with
    | Some d =>
        if Js.truthy d then Ok d
        else Ok (VStr ("KarianaUMCP tool: " ++ name))
    | None => Ok (VStr ("KarianaUMCP tool: " ++ name))
    end
    = Ok (Js.or_default (obj_get entries "description")
            (VStr ("KarianaUMCP tool: " ++ name)))).
  { unfold Js.or_default.
    destruct (obj_get entries "description") as [d|]; [|reflexivity].
    destruct (Js.truthy d); reflexivity. }
  rewrite Hd. cbn [bind Js.or_default Js.truthy ListTools.Object_entries].
  rewrite (properties_follow_catalog parameters []) by assumption.
  cbn [bind app].
  rewrite (required_keys_total parameters Hnull). reflexivity.
Qed.


(** *** The theorems above, on the catalog of [Catalog] *)
Section OnCatalog.
#[local] Existing Instance Catalog.node.

Lemma listed_property_types_witness :
  exists reply,
    ListTools.handler Catalog.online = Fulfilled reply
    /\ Forall (fun t =>
                 Forall Layout.typed_well
                   (ListTools.properties (ListTools.inputSchema t)))
         (ListTools.tools reply).
Proof.
  eexists. split; [vm_compute; reflexivity|].
  apply (listed_property_types Catalog.node Catalog.online).
  vm_compute. reflexivity.
Defined.

Lemma listed_tools_are_described_witness :
  exists reply,
    ListTools.handler Catalog.online = Fulfilled reply
    /\ Forall (fun t =>
                 Js.truthy (ListTools.tool_description t) = true
                 /\ ListTools.schema_type (ListTools.inputSchema t) = "object")
         (ListTools.tools reply).
Proof.
  eexists. split; [vm_compute; reflexivity|].
  apply (listed_tools_are_described Catalog.node Catalog.online).
  vm_compute. reflexivity.
Defined.

Lemma tools_follow_functions_witness :
  exists ts,
    ListTools.translate Catalog.reply = Ok ts
    /\ List.map ListTools.tool_name ts = [Some (VStr "spawn_actor")].
Proof.
  eexists. split; [vm_compute; reflexivity|].
  apply (tools_follow_functions Catalog.node
           [("success", VBool true); ("functions", VArr [Catalog.spawn_actor])]
           [Catalog.spawn_actor]); reflexivity.
Defined.

Lemma required_keys_are_properties_witness :
  exists t,
    ListTools.to_tool Catalog.spawn_actor = Ok t
    /\ ListTools.required (ListTools.inputSchema t) = Some ["count"].
Proof.
  eexists. split; [vm_compute; reflexivity|].
  apply (proj1 (required_keys_are_properties Catalog.node
                  Catalog.spawn_actor _ eq_refl)).
Defined.

Lemma null_function_discards_catalog_witness :
  exists e,
    ListTools.handler Catalog.broken
    = Fulfilled (ListTools.failed e)
    /\ ListTools.tools (ListTools.failed e) = [].
Proof.
  apply (null_function_discards_catalog Catalog.node Catalog.broken
           [("success", VBool true);
            ("functions", VArr [Catalog.spawn_actor; VNull])]
           [Catalog.spawn_actor; VNull]).
  - vm_compute. reflexivity.
  - reflexivity.
  - reflexivity.
  - simpl. tauto.
Defined.

Lemma well_formed_function_translates_witness :
  exists t,
    ListTools.to_tool Catalog.spawn_actor = Ok t
    /\ List.map fst (ListTools.properties (ListTools.inputSchema t))
       = ["count"; "label"; "tags"].
Proof.
  eexists. split.
  - apply (well_formed_function_translates Catalog.node Catalog.entries
             Catalog.parameters "spawn_actor");
      try reflexivity.
    + unfold unique_keys. simpl. repeat constructor; simpl; intuition discriminate.
    + simpl. intuition discriminate.
    + simpl. intuition discriminate.
  - reflexivity.
Defined.

End OnCatalog.

(** ** More on the call-tool handler *)




(** X19. Reading the message back: every argument is found under its key
    with its value, [type] holds the name of the tool unless an argument
    took its place, and the message has no other entry. *)
Theorem message_lookup :
  forall (host : Host) (name : string) (args : Js.object) (key : string),
    unique_keys args ->
    Js.get_prop (CallTool.make_message name (Some args)) key
    = Ok (match obj_get args key with
          | Some v => Some v
          | None => if String.eqb key "type" then Some (VStr name) else None
          end).
Proof.
  intros host name args key Huniq.
  unfold CallTool.make_message, Js.get_prop. f_equal.
  destruct (obj_get args key) as [v|] eqn:G.
  - now apply spread_overrides.
  - rewrite spread_keeps.
    + simpl. now rewrite String.eqb_sym.
    + intros Hin. clear Huniq.
      induction args as [|[k w] rest IH]; [contradiction|].
      simpl in G, Hin. destruct (String.eqb_spec k key) as [->|Hne];
        [discriminate|]. destruct Hin as [->|Hin]; [congruence | auto].
Qed.

Lemma message_lookup_witness :
  Js.get_prop
    (CallTool.make_message "spawn_actor"
       (Some [("class", VStr "Cube"); ("x", VNum 3%Z)])) "x"
  = Ok (Some (VNum 3%Z)).
Proof.
  apply (message_lookup Example.node "spawn_actor"
           [("class", VStr "Cube"); ("x", VNum 3%Z)] "x").
  unfold unique_keys. simpl. repeat constructor; simpl; intuition discriminate.
Defined.

(** X20. The call handler never rejects.  It stays pending exactly as
    long as [sendMessage] does; otherwise it answers with at least one
    block, and [isError] is set exactly when both transports failed or
    the formatting code threw. *)
Theorem call_handler_always_answers :
  forall (host : Host) (net : Dispatch.network) (name : string)
         (args : option Js.object),
    let sent :=
      snd (Dispatch.sendMessage net (CallTool.make_message name args)) in
    (forall e, CallTool.handler net name args <> Rejected e)
    /\ (CallTool.handler net name args = Pending <-> sent = Pending)
    /\ (forall r,
          CallTool.handler net name args = Fulfilled r ->
          CallTool.content r <> []
          /\ (CallTool.isError r = true
              <-> ((exists e, sent = Rejected e)
                   \/ exists response e,
                        sent = Fulfilled response
                        /\ CallTool.format_response response = Throw e))).
Proof.
  intros host net name args sent. unfold CallTool.handler. fold sent.
  destruct sent as [|response|e].
  - split; [discriminate|]. split; [tauto|]. discriminate.
  - destruct (CallTool.format_response response) as [blocks|e] eqn:F.
    + split; [discriminate|]. split; [split; discriminate|].
      intros r H. injection H as <-. cbn. split.
      * now apply (format_response_nonempty response).
      * split; [discriminate|].
        intros [[e H]|(resp & e & H & Hf)]; [discriminate|].
        injection H as <-. congruence.
    + split; [discriminate|]. split; [split; discriminate|].
      intros r H. injection H as <-. cbn. split; [discriminate|].
      split; [|reflexivity]. intros _. right. eauto.
  - split; [discriminate|]. split; [split; discriminate|].
    intros r H. injection H as <-. cbn. split; [discriminate|].
    split; [|reflexivity]. intros _. left. eauto.
Qed.

Lemma call_handler_always_answers_witness :
  exists r,
    CallTool.handler Example.offline "ping" None = Fulfilled r
    /\ CallTool.content r <> [] /\ CallTool.isError r = true.
Proof.
  eexists. split; [vm_compute; reflexivity|].
  destruct (proj2 (proj2 (call_handler_always_answers Example.node
                            Example.offline "ping" None)) _ eq_refl)
    as [Hne _].
  split; [exact Hne | reflexivity].
Defined.

(** X21. A successful response that carries an image and no text gives
    the image block alone: the pretty-printed response is not added.  The
    MIME type is ["image/"] followed by [format], and ["image/png"] when
    [format] is falsy or absent. *)
Theorem image_alone :
  forall (host : Host) (props : Js.object) (image : Js.val) (kind : string),
    Js.truthy_opt (obj_get props "success") = true ->
    Js.truthy_opt (obj_get props "output") = false ->
    Js.truthy_opt (obj_get props "result") = false ->
    Js.truthy_opt (obj_get props "actors") = false ->
    obj_get props "image" = Some image ->
    Js.truthy image = true ->
    Js.to_string (Js.or_default (obj_get props "format") (VStr "png"))
    = Ok kind ->
    CallTool.format_response (VObj props)
    = Ok [CallTool.Image image ("image/" ++ kind)]
    /\ (Js.truthy_opt (obj_get props "format") = false -> kind = "png").
Proof.
  intros host props image kind Hs Ho Hr Ha Hi Ht Hk. split.
  - rewrite (format_response_success props Hs).
    unfold Layout.blocks_in_order, Layout.text_pieces, Layout.image_blocks.
    rewrite !piece_falsy by assumption. cbn [bind app].
    rewrite Hi, Ht, Hk. reflexivity.
  - intros Hf. unfold Js.or_default, Js.truthy_opt in *.
    destruct (obj_get props "format") as [f|];
      [rewrite Hf in Hk|]; cbn in Hk; congruence.
Qed.

Lemma image_alone_witness :
  CallTool.format_response
    (VObj [("success", VBool true); ("image", VStr "b64")])
  = Ok [CallTool.Image (VStr "b64") ("image/" ++ "png")].
Proof.
  apply (proj1 (image_alone Example.node
                  [("success", VBool true); ("image", VStr "b64")]
                  (VStr "b64") "png"
                  eq_refl eq_refl eq_refl eq_refl eq_refl eq_refl eq_refl)).
Defined.

(** An actor that is a string, or an object whose [name] is a string. *)
Lemma actor_line_named {host : Host} (a : Js.val) (name : string) :
  a = VStr name
  \/ (exists entries, a = VObj entries
                      /\ obj_get entries "name" = Some (VStr name)) ->
  CallTool.actor_line a = Ok ("  - " ++ name).
Proof.
  intros [->|(entries & -> & Hn)]; unfold CallTool.actor_line.
  - reflexivity.
  - unfold Js.get_prop. cbn [bind]. rewrite Hn. reflexivity.
Qed.

(** X22. The actor list: one line ["  - <name>"] per actor, in order,
    under the heading ["Actors:"]; an actor given as an object with a
    [name] is shown like the actor given as that string. *)
Theorem actors_listing :
  forall (host : Host) (actors : list Js.val) (names : list string),
    Forall2
      (fun a name =>
         a = VStr name
         \/ exists entries, a = VObj entries
                            /\ obj_get entries "name" = Some (VStr name))
      actors names ->
    CallTool.actors_text (VArr actors)
    = Ok ("Actors:" ++ nl
            ++ String.concat nl (List.map (fun name => "  - " ++ name) names)).
Proof.
  intros host actors names Hall. unfold CallTool.actors_text.
  assert (H : map_result CallTool.actor_line actors
              = Ok (List.map (fun name => "  - " ++ name) names)).
  { induction Hall as [|a name actors names Ha Hrest IH]; [reflexivity|].
    cbn [map_result List.map]. rewrite (actor_line_named a name Ha).
    cbn [bind]. rewrite IH. reflexivity. }
  rewrite H. reflexivity.
Qed.

Lemma actors_listing_witness :
  CallTool.actors_text
    (VArr [VStr "Cube"; VObj [("name", VStr "Light"); ("id", VNum 7%Z)]])
  = Ok ("Actors:" ++ nl
          ++ String.concat nl
               (List.map (fun name => "  - " ++ name) ["Cube"; "Light"])).
Proof.
  apply (actors_listing Example.node).
  constructor; [left; reflexivity|].
  constructor; [right; eexists; split; reflexivity | constructor].
Defined.

(** X23. A reply that is not an object: [null] makes the formatting code
    throw, and the client gets the ["Failed to call tool"] block with
    [isError]; any other value (a number, a string, an array, a boolean)
    is shown raw, pretty-printed, in one text block. *)
Theorem reply_that_is_not_an_object :
  forall (host : Host) (net : Dispatch.network) (name : string)
         (args : option Js.object) (response : Js.val),
    snd (Dispatch.sendMessage net (CallTool.make_message name args))
    = Fulfilled response ->
    (forall entries, response <> VObj entries) ->
    CallTool.handler net name args
    = Fulfilled
        (match response with
         | VNull =>
             CallTool.failed name (TypeError (ReadPropertyOfNull "success"))
         | _ =>
             {| CallTool.content :=
                  [CallTool.Text (Js.JSON_stringify_pretty response)];
                CallTool.isError := false |}
         end).
Proof.
  intros host net name args response Hsent Hobj.
  unfold CallTool.handler. rewrite Hsent.
  destruct response; try reflexivity.
  exfalso. now apply (Hobj props).
Qed.

Lemma reply_that_is_not_an_object_witness :
  CallTool.handler
    {| Dispatch.socket_events := [Socket.Connect; Socket.Data "null"];
       Dispatch.http := Dispatch.NoReply |}
    "ping" None
  = Fulfilled
      (CallTool.failed "ping" (TypeError (ReadPropertyOfNull "success"))).
Proof.
  apply (reply_that_is_not_an_object Example.node _ "ping" None VNull).
  - vm_compute. reflexivity.
  - discriminate.
Defined.

(** X24. A successful response that only has a text [output] is passed on
    as that text, in one block. *)
Theorem plain_output_is_passed_on :
  forall (host : Host) (props : Js.object) (output : string),
    Js.truthy_opt (obj_get props "success") = true ->
    obj_get props "output" = Some (VStr output) ->
    output <> "" ->
    Js.truthy_opt (obj_get props "result") = false ->
    Js.truthy_opt (obj_get props "actors") = false ->
    Js.truthy_opt (obj_get props "image") = false ->
    CallTool.format_response (VObj props) = Ok [CallTool.Text output].
Proof.
  intros host props output Hs Ho Hne Hr Ha Hi.
  rewrite (format_response_success props Hs).
  unfold Layout.blocks_in_order, Layout.text_pieces, Layout.image_blocks.
  rewrite (piece_falsy (obj_get props "result")) by assumption.
  rewrite (piece_falsy (obj_get props "actors")) by assumption.
  rewrite Ho. unfold Layout.piece. cbn [Js.truthy].
  apply nonempty_true in Hne. rewrite Hne.
  cbn [Js.to_string bind app].
  unfold Js.truthy_opt in Hi.
  assert (Himg : match obj_get props "image" with
                 | Some i =>
                     if Js.truthy i
                     then kind <- Js.to_string
                                    (Js.or_default (obj_get props "format")
                                       (VStr "png")) ;;
                          Ok [CallTool.Image i ("image/" ++ kind)]
                     else Ok []
                 | None => Ok []
                 end = Ok []).
  { destruct (obj_get props "image") as [i|]; [now rewrite Hi | reflexivity]. }
  rewrite Himg. cbn [bind app].
  unfold Layout.text_blocks, Layout.joined. cbn [List.filter].
  rewrite Hne. cbn [String.concat]. rewrite Hne. reflexivity.
Qed.

Lemma plain_output_is_passed_on_witness :
  CallTool.format_response
    (VObj [("success", VBool true); ("output", VStr "done");
           ("result", VNull)])
  = Ok [CallTool.Text "done"].
Proof.
  apply (plain_output_is_passed_on Example.node); try reflexivity.
  discriminate.
Defined.
